(** * ATE equipment text parsing: a shallow embedding and its properties

    The development follows the three Python modules of the repository:
    - [parsing.py]: [parse_query] and [split_options_deterministic];
    - [prompting.py]: [build_user_prompt] and [normalize_options_via_llm];
    - [app.py]: the normalisation block of [main] (option clean-up, the
      choice between the language-model path and the deterministic path,
      and the enclosing [try]/[except]); the equipment table and
      [_extract_from_selected_line]; the choice of a line, the analysis
      cache, and the explanation, category and description of the
      options in [main].

    Python [str] values are modelled as [string]; a character is a code
    point below 256, so that [str.strip], [str.split] and [str.lower] have
    their Python meaning on every Latin-1 text.  Python integers are [Z],
    with [-1] as the "not found" answer of [str.find]. *)

From Stdlib Require Import String Ascii List ZArith NArith Lia Bool.
Import ListNotations.

Open Scope string_scope.
Open Scope Z_scope.

(** ** Python string primitives *)

Module PyStr.

(** [str.isspace] on one character, for code points below 256:
    TAB..CR, FS..US, SPACE, NEL and NBSP. *)
Definition isspace (c : ascii) : bool :=
  let n := N_of_ascii c in
  (((9 <=? n) && (n <=? 13)) || ((28 <=? n) && (n <=? 32))
   || (n =? 133) || (n =? 160))%N.

(** [str.lower] on one character: A..Z and the Latin-1 capitals
    (except the multiplication sign) move up by 32. *)
Definition lower_char (c : ascii) : ascii :=
  let n := N_of_ascii c in
  if (((65 <=? n) && (n <=? 90))
      || ((192 <=? n) && (n <=? 222) && negb (n =? 215)))%N
  then ascii_of_N (n + 32) else c.

Fixpoint lower (s : string) : string :=
  match s with
  | EmptyString => EmptyString
  | String c s' => String (lower_char c) (lower s')
  end.

(** Truth value of a string: non-empty. *)
Definition truthy (s : string) : bool :=
  match s with EmptyString => false | String _ _ => true end.

Definition len (s : string) : Z := Z.of_nat (String.length s).

Fixpoint lstrip (s : string) : string :=
  match s with
  | EmptyString => EmptyString
  | String c s' => if isspace c then lstrip s' else s
  end.

Fixpoint rstrip (s : string) : string :=
  match s with
  | EmptyString => EmptyString
  | String c s' =>
      let r := rstrip s' in
      if isspace c && negb (truthy r) then EmptyString else String c r
  end.

Definition strip (s : string) : string := lstrip (rstrip s).

(** Index normalisation of slices and of the [start] argument of
    [find]: a negative index counts from the end, and everything is
    clamped to [0, len]. *)
Definition clamp (n i : Z) : Z :=
  if i <? 0 then Z.max (i + n) 0 else Z.min i n.

(** [s[a:b]] *)
Definition slice (s : string) (a b : Z) : string :=
  let n := len s in
  let a' := clamp n a in
  let b' := clamp n b in
  substring (Z.to_nat a') (Z.to_nat (b' - a')) s.

(** [find_at sub s i start]: [s] is the suffix of the text that begins
    at index [i]; the answer is the first index not below [start] that
    holds [sub], or [-1]. *)
Fixpoint find_at (sub : ascii) (s : string) (i start : Z) : Z :=
  match s with
  | EmptyString => -1
  | String c s' =>
      if (start <=? i) && Ascii.eqb c sub then i
      else find_at sub s' (i + 1) start
  end.

(** [s.find(sub, start)] for a one-character [sub]. *)
Definition find (s : string) (sub : ascii) (start : Z) : Z :=
  find_at sub s 0 (if start <? 0 then Z.max (start + len s) 0 else start).

(** [s.startswith(p)] *)
Definition startswith (s p : string) : bool := String.prefix p s.

(** [s.split(sep)] for a one-character separator: never empty, keeps
    empty fragments. *)
Fixpoint split (sep : ascii) (s : string) : list string :=
  match s with
  | EmptyString => [EmptyString]
  | String c s' =>
      if Ascii.eqb c sep then EmptyString :: split sep s'
      else match split sep s' with
           | [] => [String c EmptyString]
           | f :: fs => String c f :: fs
           end
  end.

(** [s.split()]: runs of whitespace separate the words, no empty word
    is produced.  [cur] is the word being read. *)
Fixpoint split_ws_from (cur s : string) : list string :=
  match s with
  | EmptyString => if truthy cur then [cur] else []
  | String c s' =>
      if isspace c
      then (if truthy cur then cur :: split_ws_from EmptyString s'
            else split_ws_from EmptyString s')
      else split_ws_from (cur ++ String c EmptyString) s'
  end.

Definition split_ws (s : string) : list string :=
  split_ws_from EmptyString s.

(** [sep.join(l)] *)
Fixpoint join (sep : string) (l : list string) : string :=
  match l with
  | [] => EmptyString
  | [x] => x
  | x :: rest => x ++ sep ++ join sep rest
  end.

(** [x in l] for a list of strings. *)
Definition mem (x : string) (l : list string) : bool :=
  existsb (String.eqb x) l.

(** [c in s] for a one-character [c]. *)
Fixpoint has_char (c : ascii) (s : string) : bool :=
  match s with
  | EmptyString => false
  | String c' s' => Ascii.eqb c' c || has_char c s'
  end.

End PyStr.

(** ** parsing.py *)

Module Parsing.
Import PyStr.

Record ParsedQuery := mkParsed
  { brand : string; model : string; raw_options : string }.

(** The list literal of connecting words is written out three times in
    [parse_query]: on the path without a slash, on the path with a
    slash, and for the last word before the slash. *)
Definition connecting_words_no_slash : list string :=
  ["with"; "options"; "option"; "like"; "such"; "as"; "enter"; "a";
   "query"; "like"].

Definition connecting_words_with_slash : list string :=
  ["with"; "options"; "option"; "like"; "such"; "as"; "enter"; "a";
   "query"; "like"].

Definition connecting_words_last_word : list string :=
  ["with"; "options"; "option"; "like"; "such"; "as"; "enter"; "a";
   "query"; "like"].

(** [[word for word in words if word.lower() not in ws]] *)
Definition filter_words (ws words : list string) : list string :=
  filter (fun word => negb (mem (lower word) ws)) words.

(** The [while] loop that looks for the end of the options.  Each turn
    either breaks or moves [current_pos] to a later slash; [fuel]
    bounds the number of turns and [None] means it ran out. *)
Fixpoint scan_options_end (fuel : nat) (text : string)
         (current_pos options_end_index : Z) : option Z :=
  match fuel with
  | O => None
  | S fuel' =>
      if current_pos <? len text then
        let next_slash := find text "/"%char (current_pos + 1) in
        if next_slash =? -1 then
          let next_space := find text " "%char current_pos in
          if next_space =? -1 then Some (len text)
          else
            let last_part := strip (slice text current_pos next_space) in
            if truthy last_part && negb (startswith last_part "/")
            then Some next_space
            else Some (current_pos + 1)
        else scan_options_end fuel' text next_slash options_end_index
      else Some options_end_index
  end.

(** The last word before the first slash when it is not a connecting
    word; [parse_query] computes it and then leaves it out of
    [raw_options]. *)
Definition last_word_before_slash (brand_model_words : list string)
  : string :=
  match brand_model_words with
  | [] => EmptyString
  | _ =>
      let last_word := last brand_model_words EmptyString in
      if negb (mem (lower last_word) connecting_words_last_word)
      then last_word else EmptyString
  end.

Definition parse_query (text : string) : option ParsedQuery :=
  let text := strip text in
  let slash_index := find text "/"%char 0 in
  if slash_index =? -1 then
    let words := split_ws text in
    let filtered_words := filter_words connecting_words_no_slash words in
    Some (mkParsed (nth 0 filtered_words EmptyString)
                   (nth 1 filtered_words EmptyString)
                   EmptyString)
  else
    match scan_options_end (S (String.length text)) text
                           slash_index slash_index with
    | None => None
    | Some options_end_index =>
        let brand_model_part := strip (slice text 0 slash_index) in
        let brand_model_words := split_ws brand_model_part in
        let filtered_words :=
          filter_words connecting_words_with_slash brand_model_words in
        let _last_word_before_slash :=
          last_word_before_slash brand_model_words in
        let options_part :=
          strip (slice text slash_index options_end_index) in
        Some (mkParsed (nth 0 filtered_words EmptyString)
                       (nth 1 filtered_words EmptyString)
                       options_part)
    end.

(** The loop of [split_options_deterministic]; [options] is the list
    being appended to. *)
Fixpoint split_loop (fragments options : list string) : list string :=
  match fragments with
  | [] => options
  | option :: rest =>
      let option := strip option in
      if truthy option then split_loop rest (options ++ [option])
      else split_loop rest options
  end.

(** [None] stands for Python's [None]. *)
Definition split_options_deterministic (raw_options : option string)
  : list string :=
  match raw_options with
  | None => []
  | Some s =>
      if negb (truthy s) then []
      else split_loop (split "/"%char s) []
  end.

End Parsing.

(** ** JSON values, dictionaries and exceptions *)

Module Py.

(** The exceptions the modelled code can meet; all of them are
    subclasses of [Exception]. *)
Inductive exn := TypeError | KeyError | JSONDecodeError | APIError.

Inductive result (A : Type) :=
| Ok (a : A)
| Raise (e : exn).
Arguments Ok {A} a.
Arguments Raise {A} e.

Definition bind {A B : Type} (m : result A) (f : A -> result B)
  : result B :=
  match m with Ok a => f a | Raise e => Raise e end.

(** [try: m  except Exception: handler] *)
Definition try_except {A : Type} (m : result A) (handler : A) : A :=
  match m with Ok a => a | Raise _ => handler end.

(** What [json.loads] builds: a [dict] keeps its keys in insertion
    order and is held as an association list. *)
#[warnings="-register-all"]
Inductive json :=
| JNull
| JBool (b : bool)
| JInt (z : Z)
| JFloat (literal : string)
| JStr (s : string)
| JArr (items : list json)
| JObj (fields : list (string * json)).

Definition dict := list (string * json).

Fixpoint dict_get (k : string) (d : dict) : option json :=
  match d with
  | [] => None
  | (k', v) :: rest => if String.eqb k' k then Some v else dict_get k rest
  end.

(** [d[k] = v]: replaces the value of an existing key, else appends. *)
Fixpoint dict_set (k : string) (v : json) (d : dict) : dict :=
  match d with
  | [] => [(k, v)]
  | (k', v') :: rest =>
      if String.eqb k' k then (k, v) :: rest
      else (k', v') :: dict_set k v rest
  end.

(** [needle in s] for two strings: substring test. *)
Fixpoint is_infix (needle s : string) : bool :=
  String.prefix needle s
  || match s with
     | EmptyString => false
     | String _ s' => is_infix needle s'
     end.

(** [needle in data] for a string [needle]: key membership on a dict,
    element equality on a list, substring test on a string, and a
    [TypeError] on numbers, booleans and [None]. *)
Definition contains (needle : string) (data : json) : result bool :=
  match data with
  | JObj d => Ok (existsb (fun kv => String.eqb (fst kv) needle) d)
  | JArr l =>
      Ok (existsb (fun x => match x with
                            | JStr s => String.eqb s needle
                            | _ => false
                            end) l)
  | JStr s => Ok (is_infix needle s)
  | _ => Raise TypeError
  end.

(** [data[k]] for a string key. *)
Definition getitem (data : json) (k : string) : result json :=
  match data with
  | JObj d =>
      match dict_get k d with
      | Some v => Ok v
      | None => Raise KeyError
      end
  | _ => Raise TypeError
  end.

(** [data[k] = v] for a string key: the object after the store. *)
Definition setitem (data : json) (k : string) (v : json) : result json :=
  match data with
  | JObj d => Ok (JObj (dict_set k v d))
  | _ => Raise TypeError
  end.

(** [data[k1][k2] = v].  Python updates the inner dict in place; here
    the updated inner object is stored back under [k1]. *)
Definition setitem2 (data : json) (k1 k2 : string) (v : json)
  : result json :=
  bind (getitem data k1) (fun inner =>
  bind (setitem inner k2 v) (fun inner' =>
  setitem data k1 inner')).

(** [{"normalized": {"brand": b, "model": m, "options": opts},
      "results": []}] *)
Definition record (b m : string) (opts : list string) : json :=
  JObj [("normalized",
         JObj [("brand", JStr b); ("model", JStr m);
               ("options", JArr (map JStr opts))]);
        ("results", JArr [])].

End Py.

(** ** prompting.py *)

Module Prompting.
Import PyStr Py.

Definition nl : string := String (ascii_of_N 10) EmptyString.

Definition build_user_prompt (original_text : string) : string :=
  "PARSE THIS INPUT TEXT:" ++ nl ++ nl
  ++ "ORIGINAL TEXT: " ++ original_text ++ nl ++ nl
  ++ "EXTRACTION TASK:" ++ nl
  ++ "1) Extract the brand (first meaningful word before '/')"
  ++ "2) Extract the model (second meaningful word before '/')"
  ++ "3) Extract ALL options (including the word before first '/' and everything after split by '/')"
  ++ "4) Ignore any text after the last option"
  ++ nl
  ++ "OUTPUT: Return ONLY the JSON object with 'normalized' and 'results' keys.".

(** What [client.chat.completions.create(...)] followed by
    [completion.choices[0].message.content] can do: raise, or hand
    back a content that may be [None]. *)
Inductive completion :=
| CreateRaises
| Message (content : option string).

(** The collaborator, as a function of the user prompt; the system
    prompt, the model name and the temperature are constants of the
    caller and are part of the client here. *)
Definition OpenAI := string -> completion.

(** The record returned when the response cannot be used. *)
Definition fallback : json := record EmptyString EmptyString [].

(** [completion.choices[0].message.content or "{}"] *)
Definition content_or_default (c : option string) : string :=
  match c with
  | Some s => if truthy s then s else "{}"
  | None => "{}"
  end.

Section WithJsonLoads.

(** [json.loads]: the decoded value, or [JSONDecodeError]. *)
Variable json_loads : string -> result json.

Definition normalize_options_via_llm (client : OpenAI)
           (original_text : string) : result json :=
  let user_prompt := build_user_prompt original_text in
  match client user_prompt with
  | CreateRaises => Raise APIError
  | Message c =>
      let content := content_or_default c in
      Ok (try_except
            (bind (json_loads content) (fun data =>
             bind (contains "normalized" data) (fun present =>
             if negb present then Ok fallback else Ok data)))
            fallback)
  end.

End WithJsonLoads.

End Prompting.

(** ** app.py: the normalisation block of [main] *)

Module App.
Import PyStr Parsing Py Prompting.

(** [[opt.strip() for opt in options_str.split('/') if opt.strip()]] *)
Definition raw_options_list (options_str : string) : list string :=
  map strip
      (filter (fun opt => truthy (strip opt)) (split "/"%char options_str)).

(** The loop that skips the entries equal, up to case, to the brand or
    to the model. *)
Definition filtered_options (brand_parsed model_parsed options_str : string)
  : list string :=
  filter (fun opt =>
            negb (mem (lower opt) [lower brand_parsed; lower model_parsed])
            && (0 <? len opt))
         (raw_options_list options_str).

(** The clean-up of the options column: [raw_options] is the filtered
    list joined with slashes, or the empty string when the column is
    empty. *)
Definition clean_options (brand_parsed model_parsed options_str : string)
  : string :=
  if truthy options_str
  then join "/" (filtered_options brand_parsed model_parsed options_str)
  else EmptyString.

(** The text handed to the language model. *)
Definition llm_input (brand_parsed model_parsed raw_options : string)
  : string :=
  if truthy raw_options
  then brand_parsed ++ " " ++ model_parsed ++ " " ++ raw_options
  else brand_parsed ++ " " ++ model_parsed.

Section WithJsonLoads.

Variable json_loads : string -> result json.

(** The [try]/[except] block.  [client] is the value of
    [get_openai_client()], [None] when no API key is configured;
    [brand_parsed] and [model_parsed] are the hints. *)
Definition normalize (client : option OpenAI)
           (brand_parsed model_parsed raw_options : string) : json :=
  try_except
    (bind (match client with
           | Some c =>
               normalize_options_via_llm json_loads c
                 (llm_input brand_parsed model_parsed raw_options)
           | None =>
               Ok (record brand_parsed model_parsed
                          (split_options_deterministic (Some raw_options)))
           end) (fun payload =>
     bind (setitem2 payload "normalized" "brand" (JStr brand_parsed))
          (fun payload =>
     setitem2 payload "normalized" "model" (JStr model_parsed))))
    (record brand_parsed model_parsed []).

(** From the fields of the selected line to the payload: trimming of
    brand and model, clean-up of the options, then [normalize]. *)
Definition analyze (client : option OpenAI)
           (brand model options_str : string) : json :=
  let brand_parsed := strip brand in
  let model_parsed := strip model in
  let raw_options := clean_options brand_parsed model_parsed options_str in
  normalize client brand_parsed model_parsed raw_options.

End WithJsonLoads.

End App.

(** ** The specification's side *)

Module Spec.
Import PyStr Parsing Py Prompting App.

(** The stop-word set as the specification lists it. *)
Definition stop_word_set : list string :=
  ["with"; "options"; "option"; "like"; "such"; "as"; "enter"; "a";
   "query"; "the"; "is"; "has"; "to"; "be"; "delivered"; "soon";
   "please"; "need"; "want"; "find"; "search"; "looking"; "for"].

(** The option splitter as the specification words it: the
    slash-delimited fragments, each trimmed, the empty ones dropped;
    nothing for a missing input. *)
Definition split_as_specified (x : option string) : list string :=
  match x with
  | None => []
  | Some s => filter truthy (map strip (split "/"%char s))
  end.

(** The degraded path as the specification words it: the query parser
    runs over the combined brand/model/options text, the option tokens
    equal to a hint up to case are dropped, and the splitter is applied
    to what is left. *)
Definition raw_options_as_specified
           (brand_hint model_hint options_text : string) : option string :=
  match parse_query (brand_hint ++ " " ++ model_hint ++ " " ++ options_text)
  with
  | None => None
  | Some r =>
      Some (join "/"
              (filter (fun opt =>
                         negb (mem (lower opt)
                                   [lower brand_hint; lower model_hint]))
                      (split_options_deterministic (Some (raw_options r)))))
  end.

Definition record_as_specified
           (brand_hint model_hint options_text : string) : option json :=
  match raw_options_as_specified brand_hint model_hint options_text with
  | None => None
  | Some raw =>
      Some (record brand_hint model_hint
                   (split_options_deterministic (Some raw)))
  end.

(** The top-level shape of a NormalizedRecord: [normalized] is an
    object with a string [brand], a string [model] and an array of
    strings [options]; [results] is an array. *)
Definition is_string (j : json) : bool :=
  match j with JStr _ => true | _ => false end.

Definition is_string_array (j : json) : bool :=
  match j with JArr l => forallb is_string l | _ => false end.

Definition is_array (j : json) : bool :=
  match j with JArr _ => true | _ => false end.

Definition has (k : string) (p : json -> bool) (d : dict) : bool :=
  match dict_get k d with Some v => p v | None => false end.

Definition conforms (j : json) : bool :=
  match j with
  | JObj d =>
      has "normalized"
          (fun n => match n with
                    | JObj f =>
                        has "brand" is_string f && has "model" is_string f
                        && has "options" is_string_array f
                    | _ => false
                    end) d
      && has "results" is_array d
  | _ => false
  end.

(** [payload[k1][k2]] when both look-ups succeed. *)
Definition field2 (j : json) (k1 k2 : string) : option json :=
  match j with
  | JObj d =>
      match dict_get k1 d with
      | Some (JObj f) => dict_get k2 f
      | _ => None
      end
  | _ => None
  end.

(** Three response texts and the values [json.loads] gives for them;
    [json_loads_sample] is [json.loads] on these texts and on the empty
    object, and answers every other text as undecodable. *)
Definition dq : string := String (ascii_of_N 34) EmptyString.

Definition reply_array : string := "[" ++ dq ++ "normalized" ++ dq ++ "]".

Definition reply_number : string :=
  "{" ++ dq ++ "normalized" ++ dq ++ ": 5}".

Definition reply_garbage : string := "Sorry, I cannot parse this.".

Definition json_loads_sample (s : string) : result json :=
  if String.eqb s "{}" then Ok (JObj [])
  else if String.eqb s reply_array then Ok (JArr [JStr "normalized"])
  else if String.eqb s reply_number then Ok (JObj [("normalized", JInt 5)])
  else Raise JSONDecodeError.

(** The two worked examples of the specification. *)
Definition example_slash : string :=
  "Agilent 8116A /160/EEC/PLK/UK6 has to be delivered soon".

Definition example_words : string :=
  "Agilent 8116A with options like 160/EEC/PLK/UK6 please deliver quickly".

End Spec.

(** ** app.py: the equipment table *)

Module Table.
Import PyStr.

Definition tab : ascii := ascii_of_N 9.

(** A line of the table: its fields separated by tabs. *)
Definition tabbed (fields : list string) : string :=
  join (String tab EmptyString) fields.

(** [_get_hardcoded_data()]: the header and the thirteen data lines. *)
Definition header : string :=
  tabbed ["quoteid"; "createddate"; "contactname"; "ID"; "record_id";
          "createddate"; "QuoteID"; "eqModel"; "eqBrand"; "options"].

Definition data_lines : list string :=
  [tabbed ["39061"; "2025-08-19"; "Alexander Pollak"; "4531031";
           "122672"; "NULL"; "39061"; "SMA100B"; "Rohde & Schwarz";
           "B711/B86/B93/B35"];
   tabbed ["39019"; "2025-08-05"; "Giampiero"; "4530979"; "122599";
           "NULL"; "39019"; "N8976B"; "Agilent HP Keysight";
           "544/B25/EP5/MTU/PC7/SSD/W7X/FSA/NF2/P44/PFR/2FP/1FP/W7"];
   tabbed ["38804"; "2025-05-22"; "Guillermo Leon"; "4514403";
           "122281"; "NULL"; "38804"; "4500C"; "BOONTON"; "006"];
   tabbed ["38713"; "2025-05-02"; "LYNN HOOVER"; "4469255"; "122154";
           "NULL"; "38713"; "N5172B"; "Agilent HP Keysight";
           "099/1EA/403/506/653/655/657/FRQ/UNV/N7631EMBC"];
   tabbed ["38691"; "2025-04-30"; "Mustafa Al Shaikhli"; "4468233";
           "122123"; "NULL"; "38691"; "MS2090A"; "Anritsu";
           "0031/0090/0104/0199/0714/0883/0888"];
   tabbed ["28871"; "2014-01-26"; "Larry Meiners"; "3477026";
           "107150"; "NULL"; "28871"; "E4980A"; "Agilent";
           "001/710/710"];
   tabbed ["28870"; "2014-01-24"; "Dan Hosking"; "3477024"; "107137";
           "NULL"; "28870"; "TDS744A"; "Tektronix"; "13/1F/1M/2F"];
   tabbed ["28860"; "2014-01-23"; "Christopher Reinhard"; "3477010";
           "107125"; "NULL"; "28860"; "16555D"; "Agilent";
           "W Cables/Terms"];
   tabbed ["28861"; "2014-01-23"; "Darious Clay"; "3477013"; "107127";
           "NULL"; "28861"; "8596E"; "Agilent"; "004/041/105/151/160"];
   tabbed ["27957"; "2013-04-12"; "Christopher Reinhard"; "3475696";
           "105627"; "NULL"; "27957"; "CMU300"; "Rohde & Schwarz";
           "B12/B76/B78PCMCIA/K70/K71/K75/K76/K77/K78/K79/"];
   tabbed ["27958"; "2013-04-12"; "David Bither"; "3475697"; "105644";
           "NULL"; "27958"; "CMU300"; "Rohde & Schwarz";
           "B11/B21/B71/K31/K32/K33/K34/K39/K41"];
   tabbed ["27872"; "2013-03-28"; "Sandra Fletcher"; "3475588";
           "105502"; "NULL"; "27872"; "CMU300"; "Rohde & Schwarz";
           "B21/K41/PK30"];
   tabbed ["27850"; "2013-03-25"; "Jeron Powell"; "3475561"; "105472";
           "NULL"; "27850"; "33120A"; "Agilent / HP"; "/001"]].

Definition _get_hardcoded_data : string * list string := (header, data_lines).

(** A [dict] with string keys, in insertion order. *)
Fixpoint sdict_get {V : Type} (k : string) (d : list (string * V))
  : option V :=
  match d with
  | [] => None
  | (k', v) :: rest => if String.eqb k' k then Some v else sdict_get k rest
  end.

Fixpoint sdict_set {V : Type} (k : string) (v : V) (d : list (string * V))
  : list (string * V) :=
  match d with
  | [] => [(k, v)]
  | (k', v') :: rest =>
      if String.eqb k' k then (k, v) :: rest
      else (k', v') :: sdict_set k v rest
  end.

(** [enumerate(l)], counting from [i]. *)
Fixpoint enumerate_from {A : Type} (i : nat) (l : list A) : list (nat * A) :=
  match l with
  | [] => []
  | x :: rest => (i, x) :: enumerate_from (S i) rest
  end.

(** [{name: i for i, name in enumerate(head_cols)}] *)
Definition col_to_idx (head_cols : list string) : list (string * nat) :=
  fold_left (fun d p => sdict_set (snd p) (fst p) d)
            (enumerate_from 0 head_cols) [].

(** [parts[idx] if idx is not None and idx < len(parts) else ""] *)
Definition field_or_empty (parts : list string) (idx : option nat) : string :=
  match idx with
  | Some i =>
      if (i <? List.length parts)%nat then nth i parts EmptyString
      else EmptyString
  | None => EmptyString
  end.

(** The result is the triple (brand, model, options). *)
Definition _extract_from_selected_line (header line : string)
  : string * string * string :=
  let head_cols := split tab header in
  let col_to_idx := col_to_idx head_cols in
  let parts := split tab line in
  let idx_model := sdict_get "eqModel" col_to_idx in
  let idx_brand := sdict_get "eqBrand" col_to_idx in
  let idx_options := sdict_get "options" col_to_idx in
  let brand := field_or_empty parts idx_brand in
  let model := field_or_empty parts idx_model in
  let options := field_or_empty parts idx_options in
  (brand, model, options).

(** The position of the last occurrence of [name] among the columns
    that start at position [i]. *)
Fixpoint last_index_from (i : nat) (name : string) (cols : list string)
  : option nat :=
  match cols with
  | [] => None
  | c :: rest =>
      match last_index_from (S i) name rest with
      | Some j => Some j
      | None => if String.eqb c name then Some i else None
      end
  end.

Definition last_index (name : string) (cols : list string) : option nat :=
  last_index_from 0 name cols.

(** Position [p] holds [name] and no later position does. *)
Definition is_last (name : string) (cols : list string) (p : nat) : Prop :=
  nth_error cols p = Some name
  /\ forall k, (p < k)%nat -> nth_error cols k <> Some name.

End Table.

(** ** app.py: selection, analysis cache and option table of [main] *)

Module Main.
Import PyStr Py Prompting App Table.

(** The API key as the source sets it. *)
Definition API_KEY : string := EmptyString.

(** [get_openai_client()]; [connect] stands for the constructor
    [OpenAI(api_key=...)]. *)
Definition get_openai_client {Client : Type} (connect : string -> Client)
  : option Client :=
  if negb (truthy API_KEY) then None else Some (connect API_KEY).

(** [f"{brand}|{model}"] *)
Definition analysis_key (brand model : string) : string :=
  brand ++ "|" ++ model.

(** *** Choosing a line *)

Section WithLiterals.

(** The clipboard sign in front of a display name and the placeholder
    entry: both literals hold characters above code point 255 and are
    taken as they are. *)
Variable icon : string.
Variable placeholder : string.

(** [f"<icon> {line.split('\t')[7]} {line.split('\t')[8]} -
    {line.split('\t')[2]}"], [None] for the [IndexError] of a line with
    too few fields. *)
Definition display_option (line : string) : option string :=
  let parts := split tab line in
  match nth_error parts 7, nth_error parts 8, nth_error parts 2 with
  | Some m, Some b, Some c =>
      Some (icon ++ " " ++ m ++ " " ++ b ++ " - " ++ c)
  | _, _, _ => None
  end.

Fixpoint display_names (lines : list string) : option (list string) :=
  match lines with
  | [] => Some []
  | line :: rest =>
      match display_option line, display_names rest with
      | Some d, Some ds => Some (d :: ds)
      | _, _ => None
      end
  end.

(** The list handed to the radio buttons, placeholder first. *)
Definition display_options (lines : list string) : option (list string) :=
  match display_names lines with
  | Some ds => Some (placeholder :: ds)
  | None => None
  end.

(** [l.index(x)], [None] for the [ValueError]. *)
Fixpoint list_index (x : string) (l : list string) : option nat :=
  match l with
  | [] => None
  | y :: rest =>
      if String.eqb y x then Some 0%nat
      else match list_index x rest with
           | Some i => Some (S i)
           | None => None
           end
  end.

(** [-1] for the placeholder, else the position among the display
    options minus one. *)
Definition selected_index (options : list string) (selected : string)
  : option Z :=
  if String.eqb selected placeholder then Some (-1)
  else match list_index selected options with
       | Some i => Some (Z.of_nat i - 1)
       | None => None
       end.

(** [l[i]] for a Python index: a negative one counts from the end. *)
Definition list_getitem (l : list string) (i : Z) : option string :=
  let n := Z.of_nat (List.length l) in
  if i <? 0 then
    (if 0 <=? i + n then nth_error l (Z.to_nat (i + n)) else None)
  else nth_error l (Z.to_nat i).

(** What the choice amounts to. *)
Inductive choice :=
| NoDataset
| NothingChosen
| Chosen (selected_line : string)
| Fails.

(** From the table and the display name picked by the user to the
    selected line. *)
Definition choose (header : string) (all_data_lines : list string)
           (selected : string) : choice :=
  if truthy header && negb (Nat.eqb (List.length all_data_lines) 0) then
    match display_options all_data_lines with
    | None => Fails
    | Some options =>
        match selected_index options selected with
        | None => Fails
        | Some i =>
            if negb (i =? -1) then
              match list_getitem all_data_lines i with
              | Some line => Chosen line
              | None => Fails
              end
            else NothingChosen
        end
    end
  else NoDataset.

End WithLiterals.

(** *** Explaining and classifying the options *)

(** What a chat completion call does at these two call sites: raise
    with a message, or hand back a content that may be [None]. *)
Inductive chat_reply :=
| ChatRaises (message : string)
| ChatContent (content : option string).

(** The client as a function of the system prompt and the user prompt;
    model name and temperature are constants of each call site. *)
Definition Chat := string -> string -> chat_reply.

Definition opt_prompt (brand model opt : string) : string :=
  "Explain briefly what option '" ++ opt ++ "' means for "
  ++ brand ++ " " ++ model ++ ". "
  ++ "Include what it adds or changes, typical functionality, and any compatibility considerations. "
  ++ "Answer in 3-5 concise sentences in simple terms.".

(** The value stored for one option by the body of the loop. *)
Definition explanation (client_for_opts : option Chat)
           (brand model opt : string) : string :=
  match client_for_opts with
  | Some client =>
      match client
              "You are a helpful expert explaining test equipment options in simple terms."
              (opt_prompt brand model opt) with
      | ChatContent (Some s) =>
          if truthy s then s else "No explanation available."
      | ChatContent None => "No explanation available."
      | ChatRaises e =>
          "Could not get details for option '" ++ opt ++ "': " ++ e
      end
  | None =>
      "Option '" ++ opt ++ "' adds specific functionality to the "
      ++ brand ++ " " ++ model ++ "."
  end.

(** The loop over a list of option codes. *)
Definition option_explanations (client_for_opts : option Chat)
           (brand model : string) (options_list : list string)
  : list (string * string) :=
  fold_left (fun d opt =>
               sdict_set opt (explanation client_for_opts brand model opt) d)
            options_list [].

(** [option_explanations.get(opt, "No description available.")] *)
Definition description_of (explanations : list (string * string))
           (opt : string) : string :=
  match sdict_get opt explanations with
  | Some e => e
  | None => "No description available."
  end.

Definition valid_categories : list string :=
  ["Connectivity"; "Software"; "Calibration"; "Power"; "Display";
   "Storage"; "Communication"; "General"].

Definition category_prompt (explanation opt : string) : string :=
  "Based on this option description: '" ++ explanation
  ++ "' for option '" ++ opt ++ "', "
  ++ "categorize it into one of these categories: Connectivity, Software, Calibration, Power, Display, Storage, Communication, or General. "
  ++ "Respond with only the category name, nothing else.".

(** The category of one table row; a call that raises and a content of
    [None] both end in the [except] branch. *)
Definition category (client_for_opts : option Chat)
           (explanation opt : string) : string :=
  match client_for_opts with
  | Some client =>
      match client
              "You are a helpful expert that categorizes test equipment options. Respond with only the category name."
              (category_prompt explanation opt) with
      | ChatContent (Some s) =>
          let api_category := strip s in
          if mem api_category valid_categories then api_category
          else "General"
      | ChatContent None => "General"
      | ChatRaises _ => "General"
      end
  | None => "General"
  end.

(** [description.replace("|", "\\|")]: a backslash goes in front of
    every pipe. *)
Fixpoint escape_pipes (s : string) : string :=
  match s with
  | EmptyString => EmptyString
  | String c s' =>
      if Ascii.eqb c "|"%char
      then String "\"%char (String "|"%char (escape_pipes s'))
      else String c (escape_pipes s')
  end.

(** No pipe without a backslash right in front of it; [escaped] tells
    whether the character before the string is a backslash. *)
Fixpoint pipes_escaped_after (escaped : bool) (s : string) : bool :=
  match s with
  | EmptyString => true
  | String c s' =>
      if Ascii.eqb c "|"%char
      then escaped && pipes_escaped_after false s'
      else pipes_escaped_after (Ascii.eqb c "\"%char) s'
  end.

Definition pipes_escaped (s : string) : bool := pipes_escaped_after false s.

(** *** The analysis cache *)

(** The two entries of the session state that decide what is shown. *)
Record session := mkSession
  { session_key : option string; session_payload : option json }.

Definition key_is (st : session) (key : string) : bool :=
  match session_key st with
  | Some k => String.eqb k key
  | None => false
  end.

Section WithJsonLoads.

Variable json_loads : string -> result json.
Variable connect : string -> OpenAI.

(** One run of [main] on the chosen line: the session state after the
    run and the payload that is displayed, if any; [None] for the
    [IndexError] of a line with fewer than ten fields. *)
Definition run (st : session) (selected_line : string)
           (check_clicked : bool) : option (session * option json) :=
  let parts := split tab selected_line in
  if (List.length parts <? 10)%nat then None
  else
    let brand_for_session := strip (nth 8 parts EmptyString) in
    let model_for_session := strip (nth 7 parts EmptyString) in
    let analysis_key_current :=
      analysis_key brand_for_session model_for_session in
    let cached_analysis := key_is st analysis_key_current in
    if check_clicked || cached_analysis then
      let st' :=
        if check_clicked then
          match _extract_from_selected_line header selected_line with
          | (brand, model, options_str) =>
              let payload :=
                analyze json_loads (get_openai_client connect)
                        brand model options_str in
              mkSession (Some (analysis_key (strip brand) (strip model)))
                        (Some payload)
          end
        else st in
      Some (st',
            if key_is st' analysis_key_current then session_payload st'
            else None)
    else Some (st, None).

End WithJsonLoads.

End Main.

(** ** Predicates on strings used in the statements *)

Module StrPred.
Import PyStr.

(** Every character of the string satisfies [p]. *)
Fixpoint all_chars (p : ascii -> bool) (s : string) : bool :=
  match s with
  | EmptyString => true
  | String c s' => p c && all_chars p s'
  end.

(** Only whitespace, possibly nothing. *)
Definition blank (s : string) : bool := all_chars isspace s.

(** No whitespace at all. *)
Definition spaceless (s : string) : bool :=
  all_chars (fun c => negb (isspace c)) s.

End StrPred.

Import PyStr Parsing Py Prompting App Spec Table Main StrPred.

(** * Properties *)

(** ** The worked examples of the query parser *)

(** C1: on "Agilent 8116A /160/EEC/PLK/UK6 has to be delivered soon" the
    parser returns brand "Agilent" and model "8116A", but the options span
    stops right after the last slash: raw_options is "/160/EEC/PLK/" and
    the trailing token "UK6" is left out. *)
Theorem parse_query_example_slash :
  parse_query example_slash
  = Some (mkParsed "Agilent" "8116A" "/160/EEC/PLK/").
Proof. vm_compute. reflexivity. Qed.

(** C2: on the same text the scan starts at the first slash (index 14),
    reaches the last slash (index 26) and finds the next space at index
    30; the text between them is the token "UK6", yet the boundary is 27,
    immediately after the last slash, and not 30. *)
Theorem scan_options_end_example_slash :
  let text := strip example_slash in
  find text "/"%char 0 = 14
  /\ find text "/"%char (26 + 1) = -1
  /\ find text " "%char 26 = 30
  /\ slice text (26 + 1) 30 = "UK6"
  /\ scan_options_end (S (String.length text)) text 14 14 = Some 27.
Proof. vm_compute. repeat split; reflexivity. Qed.

(** C3, as the specification states it, fails: raw_options is not
    "160/EEC/PLK/UK6". *)
Lemma parse_query_example_words_not_as_specified :
  parse_query example_words
  <> Some (mkParsed "Agilent" "8116A" "160/EEC/PLK/UK6").
Proof. vm_compute. discriminate. Qed.

(** C3, amended: on "Agilent 8116A with options like 160/EEC/PLK/UK6
    please deliver quickly" the parser returns brand "Agilent" and model
    "8116A", and raw_options begins at the first slash, with
    "/EEC/PLK/": the token "160" before the first slash is not part of
    the options span. *)
Theorem parse_query_example_words :
  exists r,
    parse_query example_words = Some r
    /\ brand r = "Agilent" /\ model r = "8116A"
    /\ startswith (raw_options r) "/EEC/PLK/" = true
    /\ startswith (raw_options r) "160" = false.
Proof.
  eexists. split; [vm_compute; reflexivity |].
  repeat split; reflexivity.
Qed.

(** ** The option splitter *)

Lemma truthy_false (s : string) : truthy s = false <-> s = EmptyString.
Proof. destruct s; simpl; split; congruence. Qed.

Lemma truthy_true (s : string) : truthy s = true <-> s <> EmptyString.
Proof. destruct s; simpl; split; congruence. Qed.

(** The loop appends, in order, the trimmed fragments that are not
    empty. *)
Lemma split_loop_spec (fragments options : list string) :
  split_loop fragments options
  = (options ++ filter truthy (map strip fragments))%list.
Proof.
  revert options.
  induction fragments as [| f rest IH]; intros options; simpl.
  - now rewrite app_nil_r.
  - destruct (truthy (strip f)); rewrite IH.
    + now rewrite <- app_assoc.
    + reflexivity.
Qed.

Lemma filter_truthy_no_empty (l : list string) :
  ~ In EmptyString (filter truthy l).
Proof.
  intros H. apply filter_In in H. destruct H as [_ H]. discriminate H.
Qed.

(** Duplicates are kept. *)
Example split_keeps_duplicates :
  split_options_deterministic (Some "001/710/710") = ["001"; "710"; "710"].
Proof. reflexivity. Qed.

(** C5: for every input, the splitter returns the slash-delimited
    fragments in their order, each trimmed, the empty ones dropped and
    nothing else removed; the result holds no empty string; a missing
    input and the empty string both give the empty sequence.  The
    function is total. *)
Theorem split_options_deterministic_spec (x : option string) :
  split_options_deterministic x = split_as_specified x
  /\ ~ In EmptyString (split_options_deterministic x)
  /\ split_options_deterministic None = []
  /\ split_options_deterministic (Some EmptyString) = [].
Proof.
  assert (E : split_options_deterministic x = split_as_specified x).
  { destruct x as [s |]; [| reflexivity].
    unfold split_options_deterministic, split_as_specified.
    destruct s as [| c s]; [reflexivity |].
    cbn [truthy negb]. now rewrite split_loop_spec. }
  split; [exact E |]. split; [| split; reflexivity].
  rewrite E. destruct x as [s |]; simpl.
  - apply filter_truthy_no_empty.
  - intros [].
Qed.

(** ** Termination of the boundary scan *)

Lemma find_at_range (sub : ascii) (s : string) (i start : Z) :
  find_at sub s i start = -1
  \/ (i <= find_at sub s i start < i + len s
      /\ start <= find_at sub s i start).
Proof.
  revert i. induction s as [| c s IH]; intros i; simpl.
  - now left.
  - destruct ((start <=? i) && Ascii.eqb c sub) eqn:E.
    + right. apply andb_true_iff in E. destruct E as [E _].
      apply Z.leb_le in E. unfold len. simpl String.length. lia.
    + destruct (IH (i + 1)) as [H | H]; [now left | right].
      unfold len in *. simpl String.length. lia.
Qed.

Lemma find_range (s : string) (sub : ascii) (start : Z) :
  0 <= start ->
  find s sub start = -1 \/ start <= find s sub start < len s.
Proof.
  intros Hs. unfold find.
  destruct (start <? 0) eqn:E; [apply Z.ltb_lt in E; lia |].
  destruct (find_at_range sub s 0 start) as [H | H]; [now left | right; lia].
Qed.

(** With more fuel than characters left, the loop reaches its
    [break]. *)
Lemma scan_options_end_total (fuel : nat) (text : string) (pos e0 : Z) :
  0 <= pos <= len text ->
  len text - pos < Z.of_nat fuel ->
  exists e, scan_options_end fuel text pos e0 = Some e.
Proof.
  revert pos. induction fuel as [| fuel IH]; intros pos Hpos Hfuel.
  - lia.
  - cbn [scan_options_end].
    destruct (pos <? len text); [| eauto].
    destruct (find_range text "/"%char (pos + 1) ltac:(lia)) as [H | H].
    + rewrite H. cbn. destruct (find text " "%char pos =? -1); [eauto |].
      destruct (_ && _); eauto.
    + destruct (find text "/"%char (pos + 1) =? -1) eqn:E.
      * apply Z.eqb_eq in E. lia.
      * apply IH; lia.
Qed.

(** [parse_query] returns a result on every text. *)
Lemma parse_query_total (text : string) :
  exists r, parse_query text = Some r.
Proof.
  unfold parse_query.
  destruct (find (strip text) "/"%char 0 =? -1) eqn:E; [eauto |].
  apply Z.eqb_neq in E.
  destruct (find_range (strip text) "/"%char 0 ltac:(lia)) as [H | H];
    [lia |].
  destruct (scan_options_end_total (S (String.length (strip text)))
              (strip text) (find (strip text) "/"%char 0)
              (find (strip text) "/"%char 0)) as [e He].
  - lia.
  - unfold len in *. lia.
  - rewrite He. eauto.
Qed.

(** ** Connecting words are never brand or model *)

Lemma mem_false_neq (x : string) (l : list string) :
  mem x l = false -> forall w, In w l -> x <> w.
Proof.
  unfold mem. intros H w Hw E. subst w.
  assert (T : existsb (String.eqb x) l = true).
  { apply existsb_exists. exists x. split; [exact Hw | apply String.eqb_refl]. }
  congruence.
Qed.

(** Whatever the position, an entry of the filtered list (or the empty
    default) is not a connecting word up to case. *)
Lemma nth_filter_words (ws words : list string) (n : nat) :
  mem EmptyString ws = false ->
  mem (lower (nth n (filter_words ws words) EmptyString)) ws = false.
Proof.
  intros Hd.
  destruct (nth_in_or_default n (filter_words ws words) EmptyString)
    as [H | H].
  - unfold filter_words in H. apply filter_In in H. destruct H as [_ H].
    now apply negb_true_iff in H.
  - rewrite H. exact Hd.
Qed.

Lemma connecting_words_lowercase (w : string) :
  In w connecting_words_no_slash -> lower w = w.
Proof.
  unfold connecting_words_no_slash. simpl.
  intros H. repeat (destruct H as [H | H]; [subst w; reflexivity |]).
  destruct H.
Qed.

(** The filter looks at the lower-cased word only. *)
Example connecting_word_any_case :
  filter_words connecting_words_no_slash ["WITH"; "With"; "with"; "Agilent"]
  = ["Agilent"].
Proof. reflexivity. Qed.

(** C4, as the specification states it, fails: "the" belongs to the
    listed stop-word set and is returned as the brand, on the path
    without a slash and on the path with one. *)
Lemma stop_word_the_selected_as_brand :
  In "the" stop_word_set
  /\ parse_query "the Agilent 8116A" = Some (mkParsed "the" "Agilent" "")
  /\ parse_query "the Agilent 8116A /160/EEC"
     = Some (mkParsed "the" "Agilent" "/160/EEC").
Proof.
  split; [simpl; tauto |]. split; vm_compute; reflexivity.
Qed.

(** C4, amended: for every input, [parse_query] returns a result whose
    brand and model are not equal, up to case, to any of the nine
    connecting words "with", "options", "option", "like", "such", "as",
    "enter", "a", "query"; the path without a slash and the path with a
    slash filter against lists with the same members. *)
Theorem connecting_word_never_brand_or_model (text : string) :
  exists r,
    parse_query text = Some r
    /\ (forall w, In w connecting_words_no_slash ->
                  lower (brand r) <> lower w /\ lower (model r) <> lower w)
    /\ connecting_words_no_slash = connecting_words_with_slash.
Proof.
  destruct (parse_query_total text) as [r Hr].
  exists r. split; [exact Hr |]. split; [| reflexivity].
  intros w Hw. rewrite (connecting_words_lowercase w Hw).
  unfold parse_query in Hr.
  destruct (find (strip text) "/"%char 0 =? -1).
  - injection Hr as <-. cbn [brand model].
    split; (eapply mem_false_neq; [apply nth_filter_words; reflexivity | exact Hw]).
  - destruct (scan_options_end _ _ _ _); [| discriminate].
    injection Hr as <-. cbn [brand model].
    split; (eapply mem_false_neq; [apply nth_filter_words; reflexivity | exact Hw]).
Qed.

(** ** Dictionaries *)

Lemma dict_get_set_same (k : string) (v : json) (d : dict) :
  dict_get k (dict_set k v d) = Some v.
Proof.
  induction d as [| [k' v'] d IH]; simpl.
  - now rewrite String.eqb_refl.
  - destruct (String.eqb k' k) eqn:E; simpl.
    + now rewrite String.eqb_refl.
    + now rewrite E.
Qed.

Lemma dict_get_set_other (k k0 : string) (v : json) (d : dict) :
  k0 <> k -> dict_get k0 (dict_set k v d) = dict_get k0 d.
Proof.
  intros Hk. induction d as [| [k' v'] d IH]; simpl.
  - destruct (String.eqb_spec k k0); [congruence | reflexivity].
  - destruct (String.eqb_spec k' k) as [-> | Hk']; simpl.
    + destruct (String.eqb_spec k k0); [congruence | reflexivity].
    + destruct (String.eqb_spec k' k0); [reflexivity | exact IH].
Qed.

(** A successful [data[k1][k2] = v] makes [data[k1][k2]] read [v]. *)
Lemma setitem2_field2_same (data data' : json) (k1 k2 : string) (v : json) :
  setitem2 data k1 k2 v = Ok data' -> field2 data' k1 k2 = Some v.
Proof.
  unfold setitem2, getitem, setitem, bind, field2.
  destruct data as [| | | | | | d]; try discriminate.
  destruct (dict_get k1 d) as [inner |]; [| discriminate].
  destruct inner as [| | | | | | f]; try discriminate.
  intros H. injection H as <-.
  rewrite dict_get_set_same. apply dict_get_set_same.
Qed.

(** ... and leaves the other fields of [data[k1]] as they were. *)
Lemma setitem2_field2_other (data data' : json) (k1 k2 k0 : string)
      (v : json) :
  k0 <> k2 ->
  setitem2 data k1 k2 v = Ok data' -> field2 data' k1 k0 = field2 data k1 k0.
Proof.
  unfold setitem2, getitem, setitem, bind, field2. intros Hk.
  destruct data as [| | | | | | d]; try discriminate.
  destruct (dict_get k1 d) as [inner |]; [| discriminate].
  destruct inner as [| | | | | | f]; try discriminate.
  intros H. injection H as <-.
  rewrite dict_get_set_same. now apply dict_get_set_other.
Qed.

Lemma field2_record (b m : string) (opts : list string) :
  field2 (record b m opts) "normalized" "brand" = Some (JStr b)
  /\ field2 (record b m opts) "normalized" "model" = Some (JStr m)
  /\ field2 (record b m opts) "normalized" "options"
     = Some (JArr (map JStr opts)).
Proof. repeat split; reflexivity. Qed.

(** ** The normalisation block *)

(** C6: whatever the client (absent, raising, or answering anything) and
    whatever [json.loads] makes of the answer, the payload after the
    block has [normalized.brand] equal to the brand hint and
    [normalized.model] equal to the model hint. *)
Theorem normalize_brand_model_are_hints
        (json_loads : string -> result json) (client : option OpenAI)
        (brand_parsed model_parsed raw_options : string) :
  let payload :=
    normalize json_loads client brand_parsed model_parsed raw_options in
  field2 payload "normalized" "brand" = Some (JStr brand_parsed)
  /\ field2 payload "normalized" "model" = Some (JStr model_parsed).
Proof.
  cbv zeta. unfold normalize.
  set (first := match client with Some _ => _ | None => _ end).
  destruct first as [p0 | e]; cbn [bind try_except];
    [| split; reflexivity].
  destruct (setitem2 p0 "normalized" "brand" (JStr brand_parsed))
    as [p1 | e] eqn:E1; cbn [bind try_except]; [| split; reflexivity].
  destruct (setitem2 p1 "normalized" "model" (JStr model_parsed))
    as [p2 | e] eqn:E2; cbn [bind try_except]; [| split; reflexivity].
  split.
  - assert (N : "brand" <> "model") by discriminate.
    rewrite (setitem2_field2_other _ _ _ _ _ _ N E2).
    exact (setitem2_field2_same _ _ _ _ _ E1).
  - exact (setitem2_field2_same _ _ _ _ _ E2).
Qed.

(** Without a client the block builds the record from the hints and the
    splitter, and the two stores that follow leave it as it is. *)
Lemma normalize_without_client
      (json_loads : string -> result json)
      (brand_parsed model_parsed raw_options : string) :
  normalize json_loads None brand_parsed model_parsed raw_options
  = record brand_parsed model_parsed
           (split_options_deterministic (Some raw_options)).
Proof. reflexivity. Qed.

(** C7, as the specification states it, fails: for the line
    BOONTON / 4500C / 006 a failing call gives a record without options,
    whereas the deterministic path gives the option "006". *)
Lemma call_failure_not_deterministic_path :
  analyze json_loads_sample (Some (fun _ => CreateRaises))
          "BOONTON" "4500C" "006"
  = record "BOONTON" "4500C" []
  /\ analyze json_loads_sample None "BOONTON" "4500C" "006"
     = record "BOONTON" "4500C" ["006"]
  /\ analyze json_loads_sample (Some (fun _ => CreateRaises))
             "BOONTON" "4500C" "006"
     <> analyze json_loads_sample None "BOONTON" "4500C" "006".
Proof.
  split; [reflexivity |]. split; [reflexivity |].
  vm_compute. discriminate.
Qed.

(** C7, amended: when the call to the collaborator raises, the block
    raises nothing and the payload is the record made of the two hints,
    an empty option list and no results. *)
Theorem normalize_on_call_failure
        (json_loads : string -> result json) (client : OpenAI)
        (brand_parsed model_parsed raw_options : string) :
  client (build_user_prompt (llm_input brand_parsed model_parsed raw_options))
  = CreateRaises ->
  normalize json_loads (Some client) brand_parsed model_parsed raw_options
  = record brand_parsed model_parsed [].
Proof.
  intros H. unfold normalize, normalize_options_via_llm.
  rewrite H. reflexivity.
Qed.

Lemma normalize_on_call_failure_witness :
  normalize json_loads_sample (Some (fun _ => CreateRaises))
            "BOONTON" "4500C" "006"
  = record "BOONTON" "4500C" [].
Proof.
  apply (normalize_on_call_failure json_loads_sample (fun _ => CreateRaises)).
  reflexivity.
Defined.

(** ** Responses of the collaborator *)

Lemma no_key_dict_get (k : string) (d : dict) :
  existsb (fun kv => String.eqb (fst kv) k) d = false <-> dict_get k d = None.
Proof.
  induction d as [| [k' v] d IH]; simpl; [tauto |].
  destruct (String.eqb k' k); simpl; [split; discriminate | exact IH].
Qed.

(** The responses on which the fallback record is returned: a text that
    [json.loads] rejects, an object without the key, a number, a boolean
    or [null]. *)
Lemma malformed_reply_falls_back
      (json_loads : string -> result json) (client : OpenAI)
      (original_text : string) (c : option string) :
  client (build_user_prompt original_text) = Message c ->
  (exists e, json_loads (content_or_default c) = Raise e)
  \/ (exists d, json_loads (content_or_default c) = Ok (JObj d)
                /\ dict_get "normalized" d = None)
  \/ (exists z, json_loads (content_or_default c) = Ok (JInt z))
  \/ (exists f, json_loads (content_or_default c) = Ok (JFloat f))
  \/ (exists b, json_loads (content_or_default c) = Ok (JBool b))
  \/ json_loads (content_or_default c) = Ok JNull ->
  normalize_options_via_llm json_loads client original_text = Ok fallback.
Proof.
  intros Hc H. unfold normalize_options_via_llm. rewrite Hc.
  destruct H as [[e H] | [[d [H Hd]] | [[z H] | [[f H] | [[b H] | H]]]]];
    rewrite H; try reflexivity.
  cbn [bind contains]. apply no_key_dict_get in Hd. rewrite Hd. reflexivity.
Qed.

Example garbage_reply_falls_back :
  normalize_options_via_llm json_loads_sample
    (fun _ => Message (Some reply_garbage)) "BOONTON 4500C 006"
  = Ok fallback.
Proof.
  apply (malformed_reply_falls_back _ _ _ (Some reply_garbage));
    [reflexivity |].
  left. exists JSONDecodeError. reflexivity.
Qed.

(** An object with the key is handed back unchanged, whatever is stored
    under the key and whatever else the object holds or lacks. *)
Lemma reply_with_key_returned
      (json_loads : string -> result json) (client : OpenAI)
      (original_text : string) (c : option string) (d : dict) (v : json) :
  client (build_user_prompt original_text) = Message c ->
  json_loads (content_or_default c) = Ok (JObj d) ->
  dict_get "normalized" d = Some v ->
  normalize_options_via_llm json_loads client original_text = Ok (JObj d).
Proof.
  intros Hc H Hd. unfold normalize_options_via_llm. rewrite Hc, H.
  cbn [bind contains].
  destruct (existsb _ d) eqn:E; [reflexivity |].
  apply no_key_dict_get in E. congruence.
Qed.

(** C8: the response [["normalized"]] is valid JSON and has no
    "normalized" key, yet the membership test succeeds on the array and
    the array itself is returned instead of the fallback record. *)
Theorem array_reply_returned_as_is :
  json_loads_sample reply_array = Ok (JArr [JStr "normalized"])
  /\ normalize_options_via_llm json_loads_sample
       (fun _ => Message (Some reply_array)) "BOONTON 4500C 006"
     = Ok (JArr [JStr "normalized"])
  /\ JArr [JStr "normalized"] <> fallback.
Proof.
  split; [reflexivity |]. split; [reflexivity | discriminate].
Qed.

(** C10: the response [{"normalized": 5}] passes the only test there is
    and is returned as it came, although [normalized] is a number and
    [results] is missing. *)
Theorem number_reply_returned_unvalidated :
  json_loads_sample reply_number = Ok (JObj [("normalized", JInt 5)])
  /\ normalize_options_via_llm json_loads_sample
       (fun _ => Message (Some reply_number)) "BOONTON 4500C 006"
     = Ok (JObj [("normalized", JInt 5)])
  /\ conforms (JObj [("normalized", JInt 5)]) = false
  /\ conforms fallback = true.
Proof. repeat split; reflexivity. Qed.

(** ** The path without a collaborator *)

(** C9, as the specification states it, fails: for the line
    BOONTON / 4500C / 006 the query parser finds no slash in the combined
    text and so no options, whereas the block keeps the option "006". *)
Lemma no_client_not_via_query_parser :
  record_as_specified "BOONTON" "4500C" "006"
  = Some (record "BOONTON" "4500C" [])
  /\ analyze json_loads_sample None "BOONTON" "4500C" "006"
     = record "BOONTON" "4500C" ["006"]
  /\ Some (analyze json_loads_sample None "BOONTON" "4500C" "006")
     <> record_as_specified "BOONTON" "4500C" "006".
Proof.
  split; [reflexivity |]. split; [reflexivity |].
  vm_compute. discriminate.
Qed.

(** ** The boundary scan on every text *)

Lemma find_at_hit (sub : ascii) (s : string) (i start : Z) :
  find_at sub s i start <> -1 ->
  String.get (Z.to_nat (find_at sub s i start - i)) s = Some sub.
Proof.
  revert i. induction s as [| c s IH]; intros i; simpl; [congruence |].
  destruct ((start <=? i) && Ascii.eqb c sub) eqn:E.
  - intros _. apply andb_true_iff in E. destruct E as [_ E].
    apply Ascii.eqb_eq in E. subst c.
    now replace (i - i) with 0 by lia.
  - intros H. specialize (IH (i + 1) H).
    destruct (find_at_range sub s (i + 1) start) as [R | R]; [congruence |].
    replace (Z.to_nat (find_at sub s (i + 1) start - i))
      with (S (Z.to_nat (find_at sub s (i + 1) start - (i + 1)))) by lia.
    exact IH.
Qed.

Lemma find_hit (s : string) (sub : ascii) (start : Z) :
  0 <= start ->
  find s sub start <> -1 ->
  String.get (Z.to_nat (find s sub start)) s = Some sub.
Proof.
  unfold find. intros Hs H.
  destruct (start <? 0) eqn:E; [apply Z.ltb_lt in E; lia |].
  apply find_at_hit in H. now rewrite Z.sub_0_r in H.
Qed.

Lemma substring_head (n k : nat) (s : string) (c : ascii) :
  String.get n s = Some c ->
  substring n (S k) s = String c (substring (S n) k s).
Proof.
  revert s. induction n as [| n IH]; intros [| c' s] H; simpl in *;
    try discriminate.
  - injection H as ->. reflexivity.
  - now apply IH.
Qed.

Lemma clamp_inside (n i : Z) : 0 <= i <= n -> clamp n i = i.
Proof.
  intros H. unfold clamp.
  destruct (i <? 0) eqn:E; [apply Z.ltb_lt in E |]; lia.
Qed.

Lemma strip_keeps_leading_slash (r : string) :
  strip (String "/"%char r) = String "/"%char (rstrip r).
Proof.
  unfold strip. cbn [rstrip].
  change (isspace "/"%char) with false. cbn [andb lstrip].
  change (isspace "/"%char) with false. reflexivity.
Qed.

(** The piece of text the loop tests begins at the last slash itself, so
    it always starts with a slash. *)
Lemma last_part_starts_with_slash (text : string) (pos next_space : Z) :
  0 <= pos < next_space ->
  next_space <= len text ->
  String.get (Z.to_nat pos) text = Some "/"%char ->
  startswith (strip (slice text pos next_space)) "/" = true.
Proof.
  intros Hp Hs Hg. unfold slice.
  rewrite !clamp_inside by lia.
  replace (Z.to_nat (next_space - pos))
    with (S (Z.to_nat (next_space - pos - 1))) by lia.
  rewrite (substring_head _ _ _ _ Hg), strip_keeps_leading_slash.
  unfold startswith. cbn [prefix].
  destruct (ascii_dec "/" "/") as [_ | N]; [| congruence].
  destruct (rstrip _); reflexivity.
Qed.

(** What the loop returns from a slash position [pos]: there is a last
    slash at or after [pos]; when no space follows it the boundary is the
    end of the text, and when a space follows it the boundary is right
    after that slash.  The branch that would put the boundary at the
    space is never taken. *)
Lemma scan_options_end_result (fuel : nat) (text : string) (pos e0 e : Z) :
  0 <= pos < len text ->
  String.get (Z.to_nat pos) text = Some "/"%char ->
  scan_options_end fuel text pos e0 = Some e ->
  exists last,
    pos <= last < len text
    /\ String.get (Z.to_nat last) text = Some "/"%char
    /\ find text "/"%char (last + 1) = -1
    /\ e = if find text " "%char last =? -1 then len text else last + 1.
Proof.
  revert pos. induction fuel as [| fuel IH]; intros pos Hp Hg; simpl;
    [discriminate |].
  destruct (Z.ltb_spec pos (len text)) as [_ | ?]; [| lia].
  destruct (Z.eqb_spec (find text "/"%char (pos + 1)) (-1)) as [E | E].
  - intros H. exists pos. repeat split; try lia; try assumption.
    destruct (Z.eqb_spec (find text " "%char pos) (-1)) as [Es | Es];
      [congruence |].
    assert (Hsp : pos < find text " "%char pos < len text).
    { destruct (find_range text " "%char pos ltac:(lia)) as [R | R];
        [congruence |].
      assert (G := find_hit text " "%char pos ltac:(lia) Es).
      destruct (Z.eq_dec (find text " "%char pos) pos) as [Q | Q]; [| lia].
      rewrite Q, Hg in G. discriminate G. }
    rewrite last_part_starts_with_slash in H by (assumption || lia).
    rewrite andb_false_r in H. congruence.
  - intros H.
    destruct (find_range text "/"%char (pos + 1) ltac:(lia)) as [R | R];
      [congruence |].
    assert (B : 0 <= find text "/"%char (pos + 1) < len text) by lia.
    assert (G := find_hit text "/"%char (pos + 1) ltac:(lia) E).
    destruct (IH _ B G H) as [last [L1 [L2 [L3 L4]]]].
    exists last. repeat split; try lia; assumption.
Qed.

(** On a text with a slash, [raw_options] runs from the first slash to
    the end of the text when no space follows the last slash, and to the
    last slash included when a space follows it: a token between the
    last slash and a following space is never part of it. *)
Lemma parse_query_options_span (text : string) (r : ParsedQuery) :
  let t := strip text in
  find t "/"%char 0 <> -1 ->
  parse_query text = Some r ->
  exists last,
    find t "/"%char 0 <= last < len t
    /\ String.get (Z.to_nat last) t = Some "/"%char
    /\ find t "/"%char (last + 1) = -1
    /\ raw_options r
       = strip (slice t (find t "/"%char 0)
                      (if find t " "%char last =? -1 then len t
                       else last + 1)).
Proof.
  intros t Hs. unfold parse_query. fold t.
  destruct (Z.eqb_spec (find t "/"%char 0) (-1)) as [E | _]; [congruence |].
  destruct (scan_options_end _ t _ _) as [e |] eqn:He; [| discriminate].
  intros H. injection H as <-. cbn [raw_options].
  destruct (find_range t "/"%char 0 ltac:(lia)) as [R | R]; [congruence |].
  assert (G := find_hit t "/"%char 0 ltac:(lia) Hs).
  destruct (scan_options_end_result _ _ _ _ _ R G He)
    as [last [L1 [L2 [L3 L4]]]].
  exists last. subst e. repeat split; try lia; assumption.
Qed.

(** ** Splitting what was joined *)

Lemma split_without_sep (sep : ascii) (x : string) :
  has_char sep x = false -> split sep x = [x].
Proof.
  induction x as [| c x IH]; simpl; [reflexivity |].
  intros H. apply orb_false_iff in H. destruct H as [Hc Hx].
  rewrite Hc, (IH Hx). reflexivity.
Qed.

Lemma split_app_sep (sep : ascii) (x rest : string) :
  has_char sep x = false ->
  split sep (x ++ String sep rest) = x :: split sep rest.
Proof.
  induction x as [| c x IH]; simpl.
  - intros _. now rewrite Ascii.eqb_refl.
  - intros H. apply orb_false_iff in H. destruct H as [Hc Hx].
    rewrite Hc, (IH Hx). reflexivity.
Qed.

Lemma split_join (sep : ascii) (l : list string) :
  l <> [] ->
  Forall (fun x => has_char sep x = false) l ->
  split sep (join (String sep EmptyString) l) = l.
Proof.
  intros Hne Hl. induction Hl as [| x l Hx Hl IH]; [congruence |].
  destruct l as [| y l].
  - simpl. now apply split_without_sep.
  - change (join (String sep EmptyString) (x :: y :: l))
      with (x ++ String sep (join (String sep EmptyString) (y :: l))).
    rewrite (split_app_sep _ _ _ Hx), IH by discriminate. reflexivity.
Qed.

Lemma split_fragments_without_sep (sep : ascii) (s : string) :
  Forall (fun x => has_char sep x = false) (split sep s).
Proof.
  induction s as [| c s IH]; simpl.
  - repeat constructor.
  - destruct (Ascii.eqb c sep) eqn:E.
    + constructor; [reflexivity | exact IH].
    + destruct (split sep s) as [| f fs]; [repeat constructor; simpl; now rewrite E |].
      inversion IH as [| ? ? Hf Hfs]; subst.
      constructor; [simpl; now rewrite E, Hf | exact Hfs].
Qed.

Lemma lstrip_without (c : ascii) (s : string) :
  has_char c s = false -> has_char c (lstrip s) = false.
Proof.
  induction s as [| c' s IH]; simpl; [reflexivity |].
  intros H. destruct (isspace c'); [| exact H].
  apply orb_false_iff in H. now apply IH.
Qed.

Lemma rstrip_without (c : ascii) (s : string) :
  has_char c s = false -> has_char c (rstrip s) = false.
Proof.
  induction s as [| c' s IH]; simpl; [reflexivity |].
  intros H. apply orb_false_iff in H. destruct H as [Hc Hs].
  destruct (isspace c' && negb (truthy (rstrip s))); simpl; [reflexivity |].
  now rewrite Hc, (IH Hs).
Qed.

Lemma strip_without (c : ascii) (s : string) :
  has_char c s = false -> has_char c (strip s) = false.
Proof. intros H. now apply lstrip_without, rstrip_without. Qed.

Lemma rstrip_idempotent (s : string) : rstrip (rstrip s) = rstrip s.
Proof.
  induction s as [| c s IH]; simpl; [reflexivity |].
  destruct (isspace c && negb (truthy (rstrip s))) eqn:E; simpl;
    [reflexivity |].
  now rewrite IH, E.
Qed.

Lemma lstrip_idempotent (s : string) : lstrip (lstrip s) = lstrip s.
Proof.
  induction s as [| c s IH]; simpl; [reflexivity |].
  destruct (isspace c) eqn:E; [exact IH |]. simpl. now rewrite E.
Qed.

(** Trimming on the left keeps a string trimmed on the right. *)
Lemma rstrip_lstrip_fixed (z : string) :
  rstrip z = z -> rstrip (lstrip z) = lstrip z.
Proof.
  induction z as [| c z IH]; simpl; [reflexivity |].
  destruct (isspace c) eqn:E; simpl.
  - destruct (negb (truthy (rstrip z))); [discriminate |].
    intros H. injection H as H. now apply IH.
  - rewrite E. simpl. trivial.
Qed.

Lemma strip_idempotent (s : string) : strip (strip s) = strip s.
Proof.
  unfold strip.
  rewrite (rstrip_lstrip_fixed (rstrip s) (rstrip_idempotent s)).
  apply lstrip_idempotent.
Qed.

Lemma truthy_app (x y : string) : truthy x = true -> truthy (x ++ y) = true.
Proof. destruct x; simpl; congruence. Qed.

Lemma join_truthy (sep : string) (l : list string) :
  l <> [] -> Forall (fun x => truthy x = true) l -> truthy (join sep l) = true.
Proof.
  intros Hne Hl. destruct Hl as [| x l Hx Hl]; [congruence |].
  destruct l; simpl; [exact Hx | now apply truthy_app].
Qed.

Lemma filter_map_fixed (l : list string) :
  Forall (fun x => strip x = x /\ truthy x = true) l ->
  filter truthy (map strip l) = l.
Proof.
  induction 1 as [| x l [Hs Ht] _ IH]; simpl; [reflexivity |].
  now rewrite Hs, Ht, IH.
Qed.

(** A list of trimmed, non-empty, slash-free strings survives joining
    with slashes and splitting again. *)
Lemma split_options_join (l : list string) :
  Forall (fun x => strip x = x /\ truthy x = true
                   /\ has_char "/"%char x = false) l ->
  split_options_deterministic (Some (join "/" l)) = l.
Proof.
  intros Hl. destruct l as [| x l]; [reflexivity |].
  unfold split_options_deterministic.
  rewrite join_truthy;
    [| discriminate | eapply Forall_impl; [| exact Hl]; simpl; tauto].
  cbn [negb]. rewrite split_loop_spec. cbn [app].
  rewrite split_join;
    [| discriminate | eapply Forall_impl; [| exact Hl]; simpl; tauto].
  apply filter_map_fixed. eapply Forall_impl; [| exact Hl]. simpl; tauto.
Qed.

Lemma raw_options_list_clean (options_str : string) :
  Forall (fun x => strip x = x /\ truthy x = true
                   /\ has_char "/"%char x = false)
         (raw_options_list options_str).
Proof.
  unfold raw_options_list. apply Forall_forall. intros x Hx.
  apply in_map_iff in Hx. destruct Hx as [y [<- Hy]].
  apply filter_In in Hy. destruct Hy as [Hy Ht].
  split; [apply strip_idempotent |]. split; [exact Ht |].
  apply strip_without.
  pose proof (split_fragments_without_sep "/"%char options_str) as F.
  rewrite Forall_forall in F. now apply F.
Qed.

Lemma filtered_options_clean (brand_parsed model_parsed options_str : string) :
  Forall (fun x => strip x = x /\ truthy x = true
                   /\ has_char "/"%char x = false)
         (filtered_options brand_parsed model_parsed options_str).
Proof.
  unfold filtered_options. apply Forall_forall. intros x Hx.
  apply filter_In in Hx. destruct Hx as [Hx _].
  pose proof (raw_options_list_clean options_str) as F.
  rewrite Forall_forall in F. now apply F.
Qed.

Lemma raw_options_list_empty : raw_options_list EmptyString = [].
Proof. reflexivity. Qed.

(** The splitter gives back the filtered list from which the raw options
    were joined. *)
Lemma split_clean_options (brand_parsed model_parsed options_str : string) :
  split_options_deterministic
    (Some (clean_options brand_parsed model_parsed options_str))
  = filtered_options brand_parsed model_parsed options_str.
Proof.
  unfold clean_options. destruct options_str as [| c s]; [reflexivity |].
  cbn [truthy]. apply split_options_join, filtered_options_clean.
Qed.

(** C9, amended: without a collaborator the payload is the record made
    of the two hints (the trimmed brand and model), of the splitter
    applied to the raw options, and of no results, where the raw options
    are the slash-separated fragments of the options text, trimmed, the
    empty ones and the ones equal up to case to a hint dropped, joined
    again with slashes; the query parser is not involved.  The splitter
    gives back exactly the fragments that were joined. *)
Theorem analyze_without_client
        (json_loads : string -> result json)
        (brand model options_str : string) :
  let raw_options := clean_options (strip brand) (strip model) options_str in
  analyze json_loads None brand model options_str
  = record (strip brand) (strip model)
           (split_options_deterministic (Some raw_options))
  /\ split_options_deterministic (Some raw_options)
     = filtered_options (strip brand) (strip model) options_str.
Proof.
  cbv zeta. split.
  - unfold analyze. apply normalize_without_client.
  - apply split_clean_options.
Qed.

(** * Further properties of the code *)

(** ** The query parser on every text *)

Lemma find_at_none (sub : ascii) (s : string) (i : Z) :
  find_at sub s i 0 = -1 -> 0 <= i -> has_char sub s = false.
Proof.
  revert i. induction s as [| c s IH]; intros i; simpl; [reflexivity |].
  intros H Hi. destruct (Z.leb_spec 0 i) as [_ | ?]; [| lia].
  cbn [andb] in H. destruct (Ascii.eqb c sub); [lia |].
  cbn [orb]. apply (IH (i + 1)); [exact H | lia].
Qed.

Lemma find_at_some (sub : ascii) (s : string) (i : Z) :
  find_at sub s i 0 <> -1 -> has_char sub s = true.
Proof.
  revert i. induction s as [| c s IH]; intros i; simpl; [congruence |].
  destruct ((0 <=? i) && Ascii.eqb c sub) eqn:E.
  - apply andb_true_iff in E. destruct E as [_ ->]. reflexivity.
  - intros H. rewrite (IH _ H). apply orb_true_r.
Qed.

(** [s.find(c) == -1] says that [c] does not occur in [s]. *)
Lemma find_none_iff (s : string) (sub : ascii) :
  find s sub 0 = -1 <-> has_char sub s = false.
Proof.
  unfold find. cbn. split.
  - intros H. apply (find_at_none _ _ 0 H). lia.
  - intros H. destruct (Z.eq_dec (find_at sub s 0 0) (-1)) as [E | E];
      [exact E |].
    apply find_at_some in E. congruence.
Qed.

Lemma lstrip_has_char (c : ascii) (s : string) :
  isspace c = false -> has_char c (lstrip s) = has_char c s.
Proof.
  intros Hc. induction s as [| c' s IH]; simpl; [reflexivity |].
  destruct (isspace c') eqn:E; [| reflexivity].
  rewrite IH. destruct (Ascii.eqb_spec c' c); [congruence | reflexivity].
Qed.

Lemma rstrip_has_char (c : ascii) (s : string) :
  isspace c = false -> has_char c (rstrip s) = has_char c s.
Proof.
  intros Hc. induction s as [| c' s IH]; simpl; [reflexivity |].
  destruct (isspace c' && negb (truthy (rstrip s))) eqn:E; simpl.
  - apply andb_true_iff in E. destruct E as [E1 E2].
    apply negb_true_iff, truthy_false in E2. rewrite E2 in IH. simpl in IH.
    rewrite <- IH. destruct (Ascii.eqb_spec c' c); [congruence | reflexivity].
  - now rewrite IH.
Qed.

Lemma strip_has_char (c : ascii) (s : string) :
  isspace c = false -> has_char c (strip s) = has_char c s.
Proof.
  intros Hc. unfold strip.
  now rewrite lstrip_has_char, rstrip_has_char.
Qed.

(** X1: on every text [parse_query] returns a result; when the text holds
    a slash, [raw_options] starts with a slash (the word in front of the
    first slash is never part of it), and when it holds none,
    [raw_options] is empty. *)
Theorem parse_query_options_start (text : string) :
  exists r,
    parse_query text = Some r
    /\ (if has_char "/"%char text
        then startswith (raw_options r) "/" = true
        else raw_options r = EmptyString).
Proof.
  destruct (parse_query_total text) as [r Hr]. exists r.
  split; [exact Hr |].
  rewrite <- (strip_has_char "/"%char text eq_refl).
  unfold parse_query in Hr. set (t := strip text) in *.
  destruct (Z.eqb_spec (find t "/"%char 0) (-1)) as [E | E].
  - injection Hr as <-. apply find_none_iff in E. rewrite E. reflexivity.
  - assert (Hc : has_char "/"%char t = true).
    { destruct (has_char "/"%char t) eqn:F; [reflexivity |].
      apply find_none_iff in F. congruence. }
    rewrite Hc.
    destruct (scan_options_end _ t _ _) as [e |] eqn:He; [| discriminate].
    injection Hr as <-. cbn [raw_options].
    destruct (find_range t "/"%char 0 ltac:(lia)) as [R | R]; [congruence |].
    assert (G := find_hit t "/"%char 0 ltac:(lia) E).
    destruct (scan_options_end_result _ _ _ _ _ R G He)
      as [last [L1 [L2 [L3 L4]]]].
    apply last_part_starts_with_slash; [| | exact G];
      subst e; destruct (find t " "%char last =? -1); lia.
Qed.

Lemma all_chars_app (p : ascii -> bool) (x y : string) :
  all_chars p (x ++ y) = all_chars p x && all_chars p y.
Proof.
  induction x as [| c x IH]; simpl; [reflexivity |].
  now rewrite IH, andb_assoc.
Qed.

Lemma has_char_all_chars (c : ascii) (s : string) :
  has_char c s = false
  <-> all_chars (fun x => negb (Ascii.eqb x c)) s = true.
Proof.
  induction s as [| c' s IH]; simpl; [tauto |].
  destruct (Ascii.eqb c' c); simpl; [split; discriminate | exact IH].
Qed.

(** The words of [str.split()] are made of the non-blank characters of
    the text: a property of all of those holds of every word. *)
Lemma split_ws_from_all (p : ascii -> bool) (s cur : string) :
  all_chars p cur = true ->
  all_chars (fun c => isspace c || p c) s = true ->
  Forall (fun w => all_chars p w = true) (split_ws_from cur s).
Proof.
  revert cur. induction s as [| c s IH]; intros cur Hcur Hs; simpl.
  - destruct (truthy cur); repeat constructor; exact Hcur.
  - simpl in Hs. apply andb_true_iff in Hs. destruct Hs as [Hc Hs].
    destruct (isspace c) eqn:E.
    + destruct (truthy cur); [constructor; [exact Hcur |] |];
        apply IH; auto.
    + apply IH; [| exact Hs].
      rewrite all_chars_app, Hcur. simpl. simpl in Hc. now rewrite Hc.
Qed.

Lemma split_ws_from_truthy (s cur : string) :
  Forall (fun w => truthy w = true) (split_ws_from cur s).
Proof.
  revert cur. induction s as [| c s IH]; intros cur; simpl.
  - destruct (truthy cur) eqn:E; repeat constructor; exact E.
  - destruct (isspace c).
    + destruct (truthy cur) eqn:E; [constructor; [exact E |] |]; apply IH.
    + apply IH.
Qed.

Lemma split_ws_spaceless (s : string) :
  Forall (fun w => spaceless w = true) (split_ws s).
Proof.
  apply split_ws_from_all; [reflexivity |].
  induction s as [| c s IH]; simpl; [reflexivity |].
  rewrite IH. now destruct (isspace c).
Qed.

Lemma split_ws_without (c : ascii) (s : string) :
  has_char c s = false ->
  Forall (fun w => has_char c w = false) (split_ws s).
Proof.
  intros H. apply has_char_all_chars in H.
  eapply Forall_impl; [intros w Hw; apply has_char_all_chars; exact Hw |].
  apply split_ws_from_all; [reflexivity |].
  induction s as [| c' s IH]; simpl in *; [reflexivity |].
  apply andb_true_iff in H. destruct H as [H1 H2].
  rewrite H1, (IH H2). now rewrite orb_true_r.
Qed.

(** The text in front of the first occurrence of a character does not
    hold that character. *)
Lemma prefix_before_find_at (sub : ascii) (s : string) (i : Z) :
  0 <= i ->
  find_at sub s i 0 <> -1 ->
  has_char sub (substring 0 (Z.to_nat (find_at sub s i 0 - i)) s) = false.
Proof.
  revert i. induction s as [| c s IH]; intros i Hi; simpl; [congruence |].
  destruct (Z.leb_spec 0 i) as [_ | ?]; [| lia]. cbn [andb].
  destruct (Ascii.eqb c sub) eqn:E.
  - intros _. now replace (i - i) with 0 by lia.
  - intros H.
    destruct (find_at_range sub s (i + 1) 0) as [R | R]; [congruence |].
    replace (Z.to_nat (find_at sub s (i + 1) 0 - i))
      with (S (Z.to_nat (find_at sub s (i + 1) 0 - (i + 1)))) by lia.
    simpl. rewrite E. apply IH; [lia | exact H].
Qed.

Lemma slice_before_find (s : string) (sub : ascii) :
  find s sub 0 <> -1 ->
  has_char sub (slice s 0 (find s sub 0)) = false.
Proof.
  intros H.
  destruct (find_range s sub 0 ltac:(lia)) as [R | R]; [congruence |].
  unfold slice. rewrite !clamp_inside by (unfold len in *; lia).
  rewrite Z.sub_0_r. cbn [Z.to_nat].
  unfold find in *. cbn in *.
  pose proof (prefix_before_find_at sub s 0 ltac:(lia) H) as P.
  now rewrite Z.sub_0_r in P.
Qed.

(** A property of every word, and of the empty string, holds of the
    entry picked from the filtered list. *)
Lemma nth_filter_words_prop (P : string -> Prop) (ws words : list string)
      (n : nat) :
  P EmptyString -> Forall P words ->
  P (nth n (filter_words ws words) EmptyString).
Proof.
  intros H0 Hall.
  destruct (nth_in_or_default n (filter_words ws words) EmptyString)
    as [H | H]; [| now rewrite H].
  unfold filter_words in H. apply filter_In in H. destruct H as [H _].
  rewrite Forall_forall in Hall. now apply Hall.
Qed.

(** The words in front of the first slash, or of the whole text when it
    has no slash, hold neither whitespace nor a slash and are not
    empty. *)
Lemma brand_model_words_clean (t : string) :
  let part := if find t "/"%char 0 =? -1 then t
              else strip (slice t 0 (find t "/"%char 0)) in
  Forall (fun w => truthy w = true /\ spaceless w = true
                   /\ has_char "/"%char w = false) (split_ws part).
Proof.
  intros part.
  assert (Hp : has_char "/"%char part = false).
  { subst part. destruct (Z.eqb_spec (find t "/"%char 0) (-1)) as [E | E].
    - now apply find_none_iff.
    - now apply strip_without, slice_before_find. }
  pose proof (split_ws_from_truthy part EmptyString) as H1.
  pose proof (split_ws_spaceless part) as H2.
  pose proof (split_ws_without _ _ Hp) as H3.
  unfold split_ws in *. rewrite Forall_forall in *.
  intros w Hw. auto.
Qed.

(** X2: on every text, the brand and the model returned by [parse_query]
    are single words: they hold no whitespace and no slash. *)
Theorem parse_query_brand_model_single_words (text : string) :
  exists r,
    parse_query text = Some r
    /\ spaceless (brand r) = true /\ has_char "/"%char (brand r) = false
    /\ spaceless (model r) = true /\ has_char "/"%char (model r) = false.
Proof.
  destruct (parse_query_total text) as [r Hr]. exists r.
  split; [exact Hr |].
  pose proof (brand_model_words_clean (strip text)) as W. cbv zeta in W.
  unfold parse_query in Hr.
  destruct (find (strip text) "/"%char 0 =? -1).
  - injection Hr as <-. cbn [brand model].
    repeat split;
      apply (nth_filter_words_prop
               (fun w => spaceless w = true /\ has_char "/"%char w = false));
      try (split; reflexivity);
      (eapply Forall_impl; [| exact W]; simpl; tauto).
  - destruct (scan_options_end _ _ _ _); [| discriminate].
    injection Hr as <-. cbn [brand model].
    repeat split;
      apply (nth_filter_words_prop
               (fun w => spaceless w = true /\ has_char "/"%char w = false));
      try (split; reflexivity);
      (eapply Forall_impl; [| exact W]; simpl; tauto).
Qed.

Lemma nth_truthy_list (l : list string) :
  Forall (fun w => truthy w = true) l ->
  nth 0 l EmptyString = EmptyString -> nth 1 l EmptyString = EmptyString.
Proof.
  intros H. destruct H as [| w l Hw _]; [reflexivity |].
  simpl. intros E. subst w. discriminate Hw.
Qed.

Lemma filter_words_truthy (ws words : list string) :
  Forall (fun w => truthy w = true) words ->
  Forall (fun w => truthy w = true) (filter_words ws words).
Proof.
  intros H. apply Forall_forall. intros w Hw.
  unfold filter_words in Hw. apply filter_In in Hw. destruct Hw as [Hw _].
  rewrite Forall_forall in H. now apply H.
Qed.

(** A text made of connecting words only has neither brand nor model. *)
Example parse_query_only_connecting_words :
  parse_query "with a query like" = Some (mkParsed "" "" "").
Proof. reflexivity. Qed.

(** X3: on every text, [parse_query] gives a model only together with a
    brand: when the brand is empty, so is the model. *)
Theorem parse_query_model_needs_brand (text : string) :
  exists r,
    parse_query text = Some r
    /\ (brand r = EmptyString -> model r = EmptyString).
Proof.
  destruct (parse_query_total text) as [r Hr]. exists r.
  split; [exact Hr |].
  pose proof (brand_model_words_clean (strip text)) as W. cbv zeta in W.
  unfold parse_query in Hr.
  destruct (find (strip text) "/"%char 0 =? -1).
  - injection Hr as <-. cbn [brand model].
    apply nth_truthy_list, filter_words_truthy.
    eapply Forall_impl; [| exact W]. simpl; tauto.
  - destruct (scan_options_end _ _ _ _); [| discriminate].
    injection Hr as <-. cbn [brand model].
    apply nth_truthy_list, filter_words_truthy.
    eapply Forall_impl; [| exact W]. simpl; tauto.
Qed.

(** ** Whitespace around the text *)

Lemma lstrip_blank_app (pad s : string) :
  blank pad = true -> lstrip (pad ++ s) = lstrip s.
Proof.
  induction pad as [| c pad IH]; simpl; [reflexivity |].
  intros H. apply andb_true_iff in H. destruct H as [Hc Hp].
  rewrite Hc. now apply IH.
Qed.

Lemma rstrip_blank (pad : string) : blank pad = true -> rstrip pad = EmptyString.
Proof.
  induction pad as [| c pad IH]; simpl; [reflexivity |].
  intros H. apply andb_true_iff in H. destruct H as [Hc Hp].
  now rewrite (IH Hp), Hc.
Qed.

Lemma rstrip_app_blank (s pad : string) :
  blank pad = true -> rstrip (s ++ pad) = rstrip s.
Proof.
  intros H. induction s as [| c s IH]; simpl.
  - now apply rstrip_blank.
  - now rewrite IH.
Qed.

Lemma rstrip_app (a s : string) :
  rstrip (a ++ s)
  = if truthy (rstrip s) then a ++ rstrip s else rstrip a.
Proof.
  induction a as [| c a IH]; simpl.
  - destruct (rstrip s); reflexivity.
  - rewrite IH. destruct (truthy (rstrip s)) eqn:E; [| reflexivity].
    destruct (a ++ rstrip s) eqn:F.
    + destruct a; simpl in F; [rewrite F in E |]; discriminate.
    + simpl. now rewrite andb_false_r.
Qed.

(** [strip] does not see blank text around its argument. *)
Lemma strip_padded (pad1 s pad2 : string) :
  blank pad1 = true -> blank pad2 = true ->
  strip (pad1 ++ s ++ pad2) = strip s.
Proof.
  intros H1 H2. unfold strip.
  rewrite rstrip_app, (rstrip_app_blank s pad2 H2).
  destruct (truthy (rstrip s)) eqn:E.
  - now apply lstrip_blank_app.
  - rewrite (rstrip_blank pad1 H1).
    apply truthy_false in E. now rewrite E.
Qed.

(** X4: blank text in front of and behind the query does not change the
    result of [parse_query]. *)
Theorem parse_query_ignores_padding (pad1 text pad2 : string) :
  blank pad1 = true -> blank pad2 = true ->
  parse_query (pad1 ++ text ++ pad2) = parse_query text.
Proof.
  intros H1 H2. unfold parse_query.
  now rewrite (strip_padded pad1 text pad2 H1 H2).
Qed.

Lemma parse_query_ignores_padding_witness :
  parse_query ("  " ++ "Tektronix TDS744A /13/1F" ++ " ")
  = parse_query "Tektronix TDS744A /13/1F".
Proof.
  apply (parse_query_ignores_padding "  " "Tektronix TDS744A /13/1F" " ");
    reflexivity.
Defined.

(** ** The option splitter once more *)

Lemma split_fragments_clean (s : string) :
  Forall (fun x => strip x = x /\ truthy x = true
                   /\ has_char "/"%char x = false)
         (filter truthy (map strip (split "/"%char s))).
Proof.
  apply Forall_forall. intros x Hx.
  apply filter_In in Hx. destruct Hx as [Hx Ht].
  apply in_map_iff in Hx. destruct Hx as [y [<- Hy]].
  split; [apply strip_idempotent |]. split; [exact Ht |].
  apply strip_without.
  pose proof (split_fragments_without_sep "/"%char s) as F.
  rewrite Forall_forall in F. now apply F.
Qed.

Lemma split_options_clean (x : option string) :
  Forall (fun o => strip o = o /\ truthy o = true
                   /\ has_char "/"%char o = false)
         (split_options_deterministic x).
Proof.
  destruct x as [s |]; [| constructor].
  unfold split_options_deterministic.
  destruct (truthy s); cbn [negb]; [| constructor].
  rewrite split_loop_spec. apply split_fragments_clean.
Qed.

(** X5: every option returned by the splitter is non-empty, has no
    whitespace at either end and holds no slash. *)
Theorem split_options_are_clean_codes (x : option string) (o : string) :
  In o (split_options_deterministic x) ->
  o <> EmptyString /\ strip o = o /\ has_char "/"%char o = false.
Proof.
  intros H. pose proof (split_options_clean x) as F.
  rewrite Forall_forall in F. destruct (F o H) as [H1 [H2 H3]].
  split; [now apply truthy_true | split; assumption].
Qed.

Lemma split_options_are_clean_codes_witness :
  "W Cables" <> EmptyString /\ strip "W Cables" = "W Cables"
  /\ has_char "/"%char "W Cables" = false.
Proof.
  apply (split_options_are_clean_codes (Some " W Cables /Terms")).
  simpl. left. reflexivity.
Defined.

(** X6: joining the options with slashes and splitting again gives the
    same options: the splitter is stable on its own output. *)
Theorem split_options_stable (x : option string) :
  split_options_deterministic
    (Some (join "/" (split_options_deterministic x)))
  = split_options_deterministic x.
Proof. apply split_options_join, split_options_clean. Qed.

Lemma split_not_nil (sep : ascii) (s : string) : split sep s <> [].
Proof.
  destruct s as [| c s]; simpl; [discriminate |].
  destruct (Ascii.eqb c sep); [discriminate |].
  destruct (split sep s); discriminate.
Qed.

Lemma split_app_end (sep : ascii) (s : string) :
  split sep (s ++ String sep EmptyString)
  = (split sep s ++ [EmptyString])%list.
Proof.
  induction s as [| c s IH]; simpl.
  - now rewrite Ascii.eqb_refl.
  - destruct (Ascii.eqb c sep); rewrite IH; [reflexivity |].
    pose proof (split_not_nil sep s) as N.
    destruct (split sep s); [congruence | reflexivity].
Qed.

(** X7: a slash in front of the options or behind them adds no option. *)
Theorem split_options_outer_slash (s : string) :
  split_options_deterministic (Some ("/" ++ s))
  = split_options_deterministic (Some s)
  /\ split_options_deterministic (Some (s ++ "/"))
     = split_options_deterministic (Some s).
Proof.
  split.
  - destruct s as [| c s]; [reflexivity |].
    unfold split_options_deterministic. cbn [append truthy negb].
    rewrite !split_loop_spec. reflexivity.
  - destruct s as [| c s]; [reflexivity |].
    unfold split_options_deterministic. cbn [append truthy negb].
    rewrite !split_loop_spec.
    change (String c (s ++ "/")) with (String c s ++ "/").
    rewrite split_app_end, map_app, filter_app. cbn. now rewrite app_nil_r.
Qed.

(** ** The payload of the normalisation block *)

Lemma conforms_record (b m : string) (opts : list string) :
  conforms (record b m opts) = true.
Proof.
  unfold conforms, record, has. cbn.
  induction opts as [| o opts IH]; [reflexivity | exact IH].
Qed.

(** X8: without a collaborator, the options of the payload are non-empty
    trimmed codes without a slash, and none of them equals the trimmed
    brand or the trimmed model up to case. *)
Theorem no_client_options_exclude_hints
        (json_loads : string -> result json)
        (brand model options_str : string) :
  exists opts,
    field2 (analyze json_loads None brand model options_str)
           "normalized" "options"
    = Some (JArr (map JStr opts))
    /\ Forall (fun o => lower o <> lower (strip brand)
                        /\ lower o <> lower (strip model)
                        /\ o <> EmptyString /\ strip o = o
                        /\ has_char "/"%char o = false) opts.
Proof.
  exists (filtered_options (strip brand) (strip model) options_str).
  split.
  - unfold analyze. rewrite normalize_without_client, split_clean_options.
    reflexivity.
  - apply Forall_forall. intros o Ho.
    pose proof (filtered_options_clean (strip brand) (strip model) options_str)
      as C.
    rewrite Forall_forall in C. destruct (C o Ho) as [C1 [C2 C3]].
    unfold filtered_options in Ho. apply filter_In in Ho.
    destruct Ho as [_ Ho]. apply andb_true_iff in Ho. destruct Ho as [Ho _].
    apply negb_true_iff in Ho.
    pose proof (mem_false_neq _ _ Ho) as N.
    repeat split; try assumption.
    + apply N. simpl. auto.
    + apply N. simpl. auto.
    + now apply truthy_true.
Qed.

(** X9: without a collaborator, and also when the call to the
    collaborator raises, the payload has the full shape of a normalised
    record: string brand and model, an array of strings as options, and
    an array of results. *)
Theorem payload_conforms_without_reply
        (json_loads : string -> result json)
        (brand_parsed model_parsed raw_options : string) :
  conforms (normalize json_loads None brand_parsed model_parsed raw_options)
  = true
  /\ (forall client : OpenAI,
        client (build_user_prompt
                  (llm_input brand_parsed model_parsed raw_options))
        = CreateRaises ->
        conforms (normalize json_loads (Some client)
                            brand_parsed model_parsed raw_options) = true).
Proof.
  split.
  - rewrite normalize_without_client. apply conforms_record.
  - intros client H. unfold normalize, normalize_options_via_llm.
    rewrite H. cbn [bind try_except]. apply conforms_record.
Qed.

Lemma dict_set_set (k : string) (v1 v2 : json) (d : dict) :
  dict_set k v2 (dict_set k v1 d) = dict_set k v2 d.
Proof.
  induction d as [| [k' v'] d IH]; simpl.
  - now rewrite String.eqb_refl.
  - destruct (String.eqb k' k) eqn:E; simpl.
    + now rewrite String.eqb_refl.
    + now rewrite E, IH.
Qed.

Lemma setitem2_object (d f : dict) (k1 k2 : string) (v : json) :
  dict_get k1 d = Some (JObj f) ->
  setitem2 (JObj d) k1 k2 v
  = Ok (JObj (dict_set k1 (JObj (dict_set k2 v f)) d)).
Proof. intros H. unfold setitem2, getitem. now rewrite H. Qed.

(** X10: when the collaborator's answer decodes to an object whose
    "normalized" entry is an object, the payload is that answer with
    "brand" and "model" stored into "normalized"; every other entry of
    "normalized" (the options among them) and every other entry of the
    answer is left as the collaborator gave it. *)
Theorem normalize_keeps_reply_fields
        (json_loads : string -> result json) (client : OpenAI)
        (brand_parsed model_parsed raw_options : string)
        (c : option string) (d f : dict) :
  client (build_user_prompt (llm_input brand_parsed model_parsed raw_options))
  = Message c ->
  json_loads (content_or_default c) = Ok (JObj d) ->
  dict_get "normalized" d = Some (JObj f) ->
  let payload :=
    normalize json_loads (Some client) brand_parsed model_parsed raw_options in
  payload
  = JObj (dict_set "normalized"
            (JObj (dict_set "model" (JStr model_parsed)
                     (dict_set "brand" (JStr brand_parsed) f))) d)
  /\ (forall k, k <> "brand" -> k <> "model" ->
                field2 payload "normalized" k = dict_get k f)
  /\ (forall k, k <> "normalized" ->
                getitem payload k = getitem (JObj d) k).
Proof.
  intros Hc Hl Hd payload.
  assert (E : payload
              = JObj (dict_set "normalized"
                        (JObj (dict_set "model" (JStr model_parsed)
                                 (dict_set "brand" (JStr brand_parsed) f))) d)).
  { subst payload. unfold normalize.
    rewrite (reply_with_key_returned _ _ _ c d (JObj f) Hc Hl Hd).
    cbn [bind]. rewrite (setitem2_object _ _ _ _ _ Hd). cbn [bind].
    rewrite (setitem2_object _ _ _ _ _ (dict_get_set_same _ _ _)).
    cbn [try_except]. now rewrite dict_set_set. }
  split; [exact E |]. rewrite E. split.
  - intros k Kb Km. unfold field2. rewrite dict_get_set_same.
    rewrite !dict_get_set_other by assumption. reflexivity.
  - intros k Kn. cbn [getitem]. now rewrite dict_get_set_other.
Qed.

Lemma normalize_keeps_reply_fields_witness :
  let loads := fun _ : string =>
    Ok (JObj [("normalized",
               JObj [("brand", JStr "HP"); ("options", JArr [JStr "006"])]);
              ("results", JArr [])]) in
  let payload :=
    normalize loads (Some (fun _ => Message None)) "BOONTON" "4500C" "006" in
  payload
  = JObj (dict_set "normalized"
            (JObj (dict_set "model" (JStr "4500C")
                     (dict_set "brand" (JStr "BOONTON")
                        [("brand", JStr "HP");
                         ("options", JArr [JStr "006"])])))
            [("normalized",
              JObj [("brand", JStr "HP"); ("options", JArr [JStr "006"])]);
             ("results", JArr [])])
  /\ (forall k, k <> "brand" -> k <> "model" ->
                field2 payload "normalized" k
                = dict_get k [("brand", JStr "HP");
                              ("options", JArr [JStr "006"])])
  /\ (forall k, k <> "normalized" ->
                getitem payload k
                = getitem (JObj [("normalized",
                                  JObj [("brand", JStr "HP");
                                        ("options", JArr [JStr "006"])]);
                                 ("results", JArr [])]) k).
Proof.
  intros loads.
  apply (normalize_keeps_reply_fields loads (fun _ => Message None)
           "BOONTON" "4500C" "006" None); reflexivity.
Defined.

(** X11: when the answer passes the collaborator wrapper but is not an
    object with an object under "normalized" (an array, a string, an
    object with a number there, ...), the stores of brand and model
    raise and the payload is the record of the hints with no options. *)
Theorem normalize_drops_unusable_reply
        (json_loads : string -> result json) (client : OpenAI)
        (brand_parsed model_parsed raw_options : string) (data : json) :
  normalize_options_via_llm json_loads client
    (llm_input brand_parsed model_parsed raw_options) = Ok data ->
  (forall d f, data = JObj d -> dict_get "normalized" d <> Some (JObj f)) ->
  normalize json_loads (Some client) brand_parsed model_parsed raw_options
  = record brand_parsed model_parsed [].
Proof.
  intros H N. unfold normalize. rewrite H. cbn [bind].
  assert (R : exists e,
             setitem2 data "normalized" "brand" (JStr brand_parsed) = Raise e).
  { unfold setitem2, getitem.
    destruct data as [| | | | | | d]; try (eexists; reflexivity).
    destruct (dict_get "normalized" d) as [inner |] eqn:E;
      [| eexists; reflexivity].
    destruct inner as [| | | | | | f]; try (eexists; reflexivity).
    exfalso. exact (N d f eq_refl E). }
  destruct R as [e R]. rewrite R. reflexivity.
Qed.

Lemma normalize_drops_unusable_reply_witness :
  normalize json_loads_sample (Some (fun _ => Message (Some reply_array)))
            "BOONTON" "4500C" "006"
  = record "BOONTON" "4500C" [].
Proof.
  apply (normalize_drops_unusable_reply json_loads_sample
           (fun _ => Message (Some reply_array)) "BOONTON" "4500C" "006"
           (JArr [JStr "normalized"])).
  - reflexivity.
  - intros d f H. discriminate H.
Defined.

(** ** Reading a line of the table *)

Lemma sdict_get_set {V : Type} (k k0 : string) (v : V)
      (d : list (string * V)) :
  sdict_get k0 (sdict_set k v d)
  = if String.eqb k k0 then Some v else sdict_get k0 d.
Proof.
  induction d as [| [k' v'] d IH]; simpl; [reflexivity |].
  destruct (String.eqb_spec k' k) as [-> | Hk]; simpl.
  - destruct (String.eqb k k0); reflexivity.
  - rewrite IH. destruct (String.eqb_spec k' k0) as [-> | Hk0];
      [| reflexivity].
    destruct (String.eqb_spec k k0); [congruence | reflexivity].
Qed.

(** Building the column index by successive stores: a name ends up with
    the position of its last occurrence. *)
Lemma col_to_idx_fold (name : string) (cols : list string) (i : nat)
      (d : list (string * nat)) :
  sdict_get name
    (fold_left (fun d p => sdict_set (snd p) (fst p) d)
               (enumerate_from i cols) d)
  = match last_index_from i name cols with
    | Some j => Some j
    | None => sdict_get name d
    end.
Proof.
  revert i d. induction cols as [| c cols IH]; intros i d; simpl;
    [reflexivity |].
  rewrite IH. destruct (last_index_from (S i) name cols); [reflexivity |].
  rewrite sdict_get_set. destruct (String.eqb c name); reflexivity.
Qed.

Lemma col_to_idx_last (name : string) (cols : list string) :
  sdict_get name (col_to_idx cols) = last_index name cols.
Proof.
  unfold col_to_idx, last_index. rewrite col_to_idx_fold.
  destruct (last_index_from 0 name cols); reflexivity.
Qed.

Lemma last_index_from_absent (name : string) (cols : list string) (i : nat) :
  (forall k, nth_error cols k <> Some name) ->
  last_index_from i name cols = None.
Proof.
  revert i. induction cols as [| c cols IH]; intros i H; simpl;
    [reflexivity |].
  rewrite IH by (intros k; exact (H (S k))).
  destruct (String.eqb_spec c name) as [-> | _]; [| reflexivity].
  exfalso. exact (H 0%nat eq_refl).
Qed.

Lemma last_index_from_is_last (name : string) (cols : list string)
      (i p : nat) :
  is_last name cols p -> last_index_from i name cols = Some (i + p)%nat.
Proof.
  revert i p. induction cols as [| c cols IH]; intros i p [Hp Hl].
  - destruct p; discriminate Hp.
  - simpl. destruct p as [| p].
    + injection Hp as ->.
      rewrite last_index_from_absent.
      * rewrite String.eqb_refl. f_equal. lia.
      * intros k. apply (Hl (S k)). lia.
    + rewrite (IH (S i) p).
      * f_equal. lia.
      * split; [exact Hp |]. intros k Hk. apply (Hl (S k)). lia.
Qed.

Lemma last_index_not_in (name : string) (cols : list string) :
  ~ In name cols -> last_index name cols = None.
Proof.
  intros H. apply last_index_from_absent. intros k E.
  apply H. eapply nth_error_In. exact E.
Qed.

Lemma field_or_empty_nth (parts : list string) (i : nat) :
  field_or_empty parts (Some i) = nth i parts EmptyString.
Proof.
  unfold field_or_empty. destruct (Nat.ltb_spec i (List.length parts));
    [reflexivity |].
  symmetry. now apply nth_overflow.
Qed.

(** X12: when the header names a column several times, the last one
    counts: brand, model and options are the fields of the line at the
    positions of the last "eqBrand", "eqModel" and "options" columns
    (the empty string when the line has no field there). *)
Theorem extract_takes_last_named_columns
        (header line : string) (ib im io : nat) :
  is_last "eqBrand" (split tab header) ib ->
  is_last "eqModel" (split tab header) im ->
  is_last "options" (split tab header) io ->
  _extract_from_selected_line header line
  = (nth ib (split tab line) EmptyString,
     nth im (split tab line) EmptyString,
     nth io (split tab line) EmptyString).
Proof.
  intros Hb Hm Ho. unfold _extract_from_selected_line.
  rewrite !col_to_idx_last. unfold last_index.
  rewrite (last_index_from_is_last _ _ 0 _ Hb),
          (last_index_from_is_last _ _ 0 _ Hm),
          (last_index_from_is_last _ _ 0 _ Ho).
  cbn [Nat.add]. now rewrite !field_or_empty_nth.
Qed.

Lemma extract_takes_last_named_columns_witness :
  _extract_from_selected_line
    (tabbed ["eqBrand"; "eqModel"; "options"; "eqBrand"])
    (tabbed ["Agilent"; "E4980A"; "001/710"; "Keysight"])
  = (nth 3 (split tab (tabbed ["Agilent"; "E4980A"; "001/710"; "Keysight"]))
         EmptyString,
     nth 1 (split tab (tabbed ["Agilent"; "E4980A"; "001/710"; "Keysight"]))
         EmptyString,
     nth 2 (split tab (tabbed ["Agilent"; "E4980A"; "001/710"; "Keysight"]))
         EmptyString).
Proof.
  apply (extract_takes_last_named_columns
           (tabbed ["eqBrand"; "eqModel"; "options"; "eqBrand"])
           (tabbed ["Agilent"; "E4980A"; "001/710"; "Keysight"])
           3 1 2);
    (split; [reflexivity |]);
    intros k Hk;
    do 5 (destruct k as [| k]; [try lia; try discriminate |]);
    destruct k; discriminate.
Defined.

(** X13: the extraction never fails: a column that the header does not
    name gives the empty string, and so does every column on an empty
    line. *)
Theorem extract_missing_is_empty (header line : string) :
  (~ In "eqBrand" (split tab header) ->
   fst (fst (_extract_from_selected_line header line)) = EmptyString)
  /\ (~ In "eqModel" (split tab header) ->
      snd (fst (_extract_from_selected_line header line)) = EmptyString)
  /\ (~ In "options" (split tab header) ->
      snd (_extract_from_selected_line header line) = EmptyString)
  /\ _extract_from_selected_line header EmptyString
     = (EmptyString, EmptyString, EmptyString).
Proof.
  unfold _extract_from_selected_line. cbn [fst snd].
  rewrite !col_to_idx_last.
  repeat split.
  - intros H. now rewrite (last_index_not_in _ _ H).
  - intros H. now rewrite (last_index_not_in _ _ H).
  - intros H. now rewrite (last_index_not_in _ _ H).
  - assert (E : forall idx, field_or_empty (split tab EmptyString) idx
                            = EmptyString).
    { intros [i |]; [| reflexivity]. rewrite field_or_empty_nth.
      simpl. destruct i as [| [| i]]; reflexivity. }
    now rewrite !E.
Qed.

(** A header without the brand column, and a line shorter than the
    position of the options column. *)
Example extract_from_short_line :
  _extract_from_selected_line (tabbed ["id"; "eqModel"; "options"])
                              (tabbed ["17"; "4500C"])
  = ("", "4500C", "").
Proof. reflexivity. Qed.

(** With the header of the shipped table, the extraction reads the
    brand from field 8, the model from field 7 and the options from
    field 9 of the line, the same fields that [main] shows as Brand,
    Model and Options. *)
Lemma extract_with_shipped_header (line : string) :
  _extract_from_selected_line header line
  = (nth 8 (split tab line) EmptyString,
     nth 7 (split tab line) EmptyString,
     nth 9 (split tab line) EmptyString).
Proof.
  unfold _extract_from_selected_line.
  assert (E : col_to_idx (split tab header)
              = [("quoteid", 0%nat); ("createddate", 5%nat);
                 ("contactname", 2%nat); ("ID", 3%nat); ("record_id", 4%nat);
                 ("QuoteID", 6%nat); ("eqModel", 7%nat); ("eqBrand", 8%nat);
                 ("options", 9%nat)]) by (vm_compute; reflexivity).
  rewrite E. cbn [sdict_get String.eqb Ascii.eqb Bool.eqb].
  now rewrite !field_or_empty_nth.
Qed.

(** X14: a line written as tab-separated fields that hold no tab is read
    back field by field: with the shipped header the extraction returns
    fields 8, 7 and 9 as brand, model and options (the empty string for
    a field the line does not have). *)
Theorem extract_reads_back_fields (fields : list string) :
  fields <> [] ->
  Forall (fun f => has_char tab f = false) fields ->
  _extract_from_selected_line header (tabbed fields)
  = (nth 8 fields EmptyString, nth 7 fields EmptyString,
     nth 9 fields EmptyString).
Proof.
  intros Hne Hf. rewrite extract_with_shipped_header.
  unfold tabbed. now rewrite (split_join tab fields Hne Hf).
Qed.

Lemma extract_reads_back_fields_witness :
  _extract_from_selected_line header
    (tabbed ["28860"; "2014-01-23"; "Christopher Reinhard"; "3477010";
             "107125"; "NULL"; "28860"; "16555D"; "Agilent";
             "W Cables/Terms"])
  = ("Agilent", "16555D", "W Cables/Terms").
Proof.
  apply (extract_reads_back_fields
           ["28860"; "2014-01-23"; "Christopher Reinhard"; "3477010";
            "107125"; "NULL"; "28860"; "16555D"; "Agilent";
            "W Cables/Terms"]).
  - discriminate.
  - repeat constructor.
Defined.

(** ** Choosing a line *)

Lemma display_names_nth (icon : string) (lines ds : list string) (i : nat)
      (line : string) :
  display_names icon lines = Some ds ->
  nth_error lines i = Some line ->
  exists d, display_option icon line = Some d /\ nth_error ds i = Some d.
Proof.
  revert ds i. induction lines as [| l lines IH]; intros ds i Hd Hn.
  - destruct i; discriminate Hn.
  - simpl in Hd. destruct (display_option icon l) as [d |] eqn:E;
      [| discriminate].
    destruct (display_names icon lines) as [ds' |]; [| discriminate].
    injection Hd as <-. destruct i as [| i]; simpl in *.
    + injection Hn as <-. eauto.
    + now apply IH.
Qed.

Lemma list_index_first (x : string) (l : list string) (i : nat) :
  nth_error l i = Some x ->
  (forall j, (j < i)%nat -> nth_error l j <> Some x) ->
  list_index x l = Some i.
Proof.
  revert i. induction l as [| y l IH]; intros i Hn Hf.
  - destruct i; discriminate Hn.
  - simpl. destruct i as [| i]; simpl in Hn.
    + injection Hn as ->. now rewrite String.eqb_refl.
    + destruct (String.eqb_spec y x) as [-> | _].
      * exfalso. apply (Hf 0%nat); [lia | reflexivity].
      * rewrite (IH i Hn); [reflexivity |].
        intros j Hj. apply (Hf (S j)). lia.
Qed.

(** X15: picking the display name of line [i] selects line [i], as long
    as every line has the fields a display name needs, the name is not
    the placeholder, and no earlier line has the same display name. *)
Theorem choose_selects_the_line
        (icon placeholder header : string) (lines ds : list string)
        (i : nat) (line d : string) :
  header <> EmptyString ->
  display_names icon lines = Some ds ->
  nth_error lines i = Some line ->
  nth_error ds i = Some d ->
  (forall j, (j < i)%nat -> nth_error ds j <> Some d) ->
  d <> placeholder ->
  choose icon placeholder header lines d = Chosen line.
Proof.
  intros Hh Hds Hl Hd Hfirst Hp. unfold choose.
  apply truthy_true in Hh. rewrite Hh.
  destruct lines as [| l0 lines']; [destruct i; discriminate Hl |].
  cbn [List.length Nat.eqb negb andb].
  unfold display_options. rewrite Hds. unfold selected_index.
  destruct (String.eqb_spec d placeholder) as [? | _]; [contradiction |].
  cbn [list_index].
  destruct (String.eqb_spec placeholder d) as [? | _]; [congruence |].
  rewrite (list_index_first d ds i Hd Hfirst).
  replace (Z.of_nat (S i) - 1) with (Z.of_nat i) by lia.
  destruct (Z.eqb_spec (Z.of_nat i) (-1)) as [? | _]; [lia |].
  cbn [negb]. unfold list_getitem.
  destruct (Z.ltb_spec (Z.of_nat i) 0) as [? | _]; [lia |].
  now rewrite Nat2Z.id, Hl.
Qed.

Lemma choose_selects_the_line_witness :
  choose "*" "- Select equipment -" header
         [tabbed ["0"; "1"; "Ann"; "3"; "4"; "5"; "6"; "CMU300"; "R&S"; "B12"];
          tabbed ["0"; "1"; "Bob"; "3"; "4"; "5"; "6"; "CMU300"; "R&S"; "B21"]]
         "* CMU300 R&S - Bob"
  = Chosen
      (tabbed ["0"; "1"; "Bob"; "3"; "4"; "5"; "6"; "CMU300"; "R&S"; "B21"]).
Proof.
  apply (choose_selects_the_line "*" "- Select equipment -" header
           [tabbed ["0"; "1"; "Ann"; "3"; "4"; "5"; "6"; "CMU300"; "R&S"; "B12"];
            tabbed ["0"; "1"; "Bob"; "3"; "4"; "5"; "6"; "CMU300"; "R&S"; "B21"]]
           ["* CMU300 R&S - Ann"; "* CMU300 R&S - Bob"] 1);
    try reflexivity; try discriminate.
  intros j Hj. destruct j as [| j]; [discriminate | lia].
Defined.

(** Two lines with the same model, brand and contact have the same
    display name, and picking it selects the first of them. *)
Example choose_first_of_equal_names :
  choose "*" "- Select equipment -" header
         [tabbed ["0"; "1"; "Ann"; "3"; "4"; "5"; "6"; "CMU300"; "R&S"; "B12"];
          tabbed ["0"; "1"; "Ann"; "3"; "4"; "5"; "6"; "CMU300"; "R&S"; "B21"]]
         "* CMU300 R&S - Ann"
  = Chosen
      (tabbed ["0"; "1"; "Ann"; "3"; "4"; "5"; "6"; "CMU300"; "R&S"; "B12"]).
Proof. reflexivity. Qed.

(** ** Explanations and categories of the options *)

Lemma explanations_fold_absent (g : string -> string) (opts : list string)
      (d : list (string * string)) (opt : string) :
  ~ In opt opts ->
  sdict_get opt (fold_left (fun d o => sdict_set o (g o) d) opts d)
  = sdict_get opt d.
Proof.
  revert d. induction opts as [| o opts IH]; intros d H; simpl;
    [reflexivity |].
  rewrite IH by (intros F; apply H; now right).
  rewrite sdict_get_set.
  destruct (String.eqb_spec o opt) as [-> | _]; [| reflexivity].
  exfalso. apply H. now left.
Qed.

Lemma explanations_fold_present (g : string -> string) (opts : list string)
      (d : list (string * string)) (opt : string) :
  In opt opts ->
  sdict_get opt (fold_left (fun d o => sdict_set o (g o) d) opts d)
  = Some (g opt).
Proof.
  revert d. induction opts as [| o opts IH]; intros d H; simpl;
    [destruct H |].
  destruct (in_dec string_dec opt opts) as [I | I].
  - now apply IH.
  - rewrite (explanations_fold_absent g opts _ opt I), sdict_get_set.
    destruct H as [-> | H]; [| contradiction].
    now rewrite String.eqb_refl.
Qed.

(** X16: after the explanation loop every option of the list has its
    explanation stored, also when the list repeats an option, so the
    option table never falls back to "No description available." for a
    listed option; without a client the stored text is the fixed
    sentence naming the option, the brand and the model. *)
Theorem every_option_is_explained
        (client_for_opts : option Chat) (brand model : string)
        (options_list : list string) (opt : string) :
  In opt options_list ->
  description_of
    (option_explanations client_for_opts brand model options_list) opt
  = explanation client_for_opts brand model opt
  /\ explanation None brand model opt
     = "Option '" ++ opt ++ "' adds specific functionality to the "
       ++ brand ++ " " ++ model ++ ".".
Proof.
  intros H. split; [| reflexivity].
  unfold description_of, option_explanations.
  now rewrite (explanations_fold_present
                 (explanation client_for_opts brand model) _ _ _ H).
Qed.

Lemma every_option_is_explained_witness :
  description_of (option_explanations None "Agilent" "E4980A"
                                      ["001"; "710"; "710"]) "710"
  = explanation None "Agilent" "E4980A" "710"
  /\ explanation None "Agilent" "E4980A" "710"
     = "Option '" ++ "710" ++ "' adds specific functionality to the "
       ++ "Agilent" ++ " " ++ "E4980A" ++ ".".
Proof.
  apply (every_option_is_explained None "Agilent" "E4980A"
           ["001"; "710"; "710"] "710").
  simpl. auto.
Defined.

(** X17: whatever the client answers, fails to answer, or is absent,
    the category of a table row is one of the eight valid categories. *)
Theorem category_is_valid
        (client_for_opts : option Chat) (explanation opt : string) :
  In (category client_for_opts explanation opt) valid_categories.
Proof.
  assert (G : In "General" valid_categories) by (simpl; tauto).
  unfold category. destruct client_for_opts as [client |]; [| exact G].
  destruct (client _ _) as [e | [s |]]; try exact G.
  destruct (mem (strip s) valid_categories) eqn:E; [| exact G].
  unfold mem in E. apply existsb_exists in E. destruct E as [x [Hx E]].
  apply String.eqb_eq in E. now subst x.
Qed.

Lemma pipes_escaped_after_escape (s : string) (b : bool) :
  pipes_escaped_after b (escape_pipes s) = true.
Proof.
  revert b. induction s as [| c s IH]; intros b; simpl; [reflexivity |].
  destruct (Ascii.eqb c "|"%char) eqn:E.
  - cbn. apply IH.
  - simpl. rewrite E. apply IH.
Qed.

(** X18: in a description prepared for the option table every pipe has
    a backslash right in front of it, and a description without pipes
    is left as it is. *)
Theorem escape_pipes_escapes (description : string) :
  pipes_escaped (escape_pipes description) = true
  /\ (has_char "|"%char description = false ->
      escape_pipes description = description).
Proof.
  split; [apply pipes_escaped_after_escape |].
  induction description as [| c s IH]; simpl; [reflexivity |].
  destruct (Ascii.eqb c "|"%char); simpl; [discriminate |].
  intros H. now rewrite IH.
Qed.

(** ** The analysis cache *)

(** X19: the cache key tells two pieces of equipment apart whenever the
    brands hold no pipe: equal keys then mean equal brand and equal
    model. *)
Theorem analysis_key_injective (brand1 model1 brand2 model2 : string) :
  has_char "|"%char brand1 = false ->
  has_char "|"%char brand2 = false ->
  analysis_key brand1 model1 = analysis_key brand2 model2 ->
  brand1 = brand2 /\ model1 = model2.
Proof.
  unfold analysis_key. revert brand2.
  induction brand1 as [| c1 b1 IH]; intros [| c2 b2] H1 H2 E; simpl in *.
  - injection E as E. now split.
  - injection E as Ec E. subst c2. discriminate H2.
  - injection E as Ec E. subst c1. discriminate H1.
  - injection E as Ec E. subst c2.
    apply orb_false_iff in H1. apply orb_false_iff in H2.
    destruct (IH b2 (proj2 H1) (proj2 H2) E) as [-> ->]. now split.
Qed.

Lemma analysis_key_injective_witness :
  "Agilent" = "Agilent" /\ "E4980A" = "E4980A".
Proof.
  apply (analysis_key_injective "Agilent" "E4980A" "Agilent" "E4980A");
    reflexivity.
Defined.

(** With a pipe in the brand two different pairs share a key. *)
Example analysis_key_collision :
  analysis_key "A|B" "C" = analysis_key "A" "B|C".
Proof. reflexivity. Qed.

Lemma get_openai_client_none {Client : Type} (connect : string -> Client) :
  get_openai_client connect = None.
Proof. reflexivity. Qed.

Lemma key_is_same (k : string) (p : option json) :
  key_is (mkSession (Some k) p) k = true.
Proof. unfold key_is. simpl. apply String.eqb_refl. Qed.

(** X20: a click on Analyze, on a line with at least ten fields, stores
    and displays the analysis of that very line: the record built
    without a collaborator from its fields 8 (brand), 7 (model) and 9
    (options), under the key of the trimmed brand and model. *)
Theorem run_click_shows_analysis
        (json_loads : string -> result json) (connect : string -> OpenAI)
        (st : session) (line : string) :
  (10 <= List.length (split tab line))%nat ->
  let parts := split tab line in
  let brand := nth 8 parts EmptyString in
  let model := nth 7 parts EmptyString in
  let payload :=
    record (strip brand) (strip model)
           (filtered_options (strip brand) (strip model)
                             (nth 9 parts EmptyString)) in
  run json_loads connect st line true
  = Some (mkSession (Some (analysis_key (strip brand) (strip model)))
                    (Some payload),
          Some payload).
Proof.
  intros Hlen parts brand model payload. unfold run. fold parts.
  assert (L : (List.length parts <? 10)%nat = false)
    by (apply Nat.ltb_ge; exact Hlen).
  rewrite L. cbn [orb]. rewrite extract_with_shipped_header.
  fold parts brand model.
  rewrite key_is_same. cbn [session_payload].
  rewrite get_openai_client_none. unfold analyze.
  rewrite normalize_without_client, split_clean_options.
  reflexivity.
Qed.

Lemma run_click_shows_analysis_witness :
  run json_loads_sample (fun _ _ => CreateRaises)
      (mkSession None None) (nth 5 data_lines EmptyString) true
  = Some (mkSession (Some (analysis_key "Agilent" "E4980A"))
                    (Some (record "Agilent" "E4980A" ["001"; "710"; "710"])),
          Some (record "Agilent" "E4980A" ["001"; "710"; "710"])).
Proof.
  apply (run_click_shows_analysis json_loads_sample (fun _ _ => CreateRaises)
           (mkSession None None) (nth 5 data_lines EmptyString)).
  vm_compute. lia.
Defined.

(** The session after a click holds the key of the line and the payload
    that is displayed. *)
Lemma run_click_state
      (json_loads : string -> result json) (connect : string -> OpenAI)
      (st st1 : session) (line : string) (shown : option json) :
  run json_loads connect st line true = Some (st1, shown) ->
  session_key st1
  = Some (analysis_key (strip (nth 8 (split tab line) EmptyString))
                       (strip (nth 7 (split tab line) EmptyString)))
  /\ shown = session_payload st1.
Proof.
  unfold run.
  destruct (List.length (split tab line) <? 10)%nat; [discriminate |].
  cbn [orb]. rewrite extract_with_shipped_header.
  rewrite key_is_same. cbn [session_payload].
  intros H. injection H as <- <-. split; reflexivity.
Qed.

(** X21: the cache goes by brand and model alone.  After an analysis of
    one line, a run without a click on another line with the same
    trimmed brand and model displays the stored analysis of the first
    line, whatever the options of the second line are, and leaves the
    session as it is. *)
Theorem run_shows_cached_analysis
        (json_loads : string -> result json) (connect : string -> OpenAI)
        (st0 st1 : session) (line1 line2 : string) (shown1 : option json) :
  run json_loads connect st0 line1 true = Some (st1, shown1) ->
  (10 <= List.length (split tab line2))%nat ->
  strip (nth 8 (split tab line2) EmptyString)
  = strip (nth 8 (split tab line1) EmptyString) ->
  strip (nth 7 (split tab line2) EmptyString)
  = strip (nth 7 (split tab line1) EmptyString) ->
  run json_loads connect st1 line2 false = Some (st1, shown1).
Proof.
  intros H1 Hlen Hb Hm.
  destruct (run_click_state _ _ _ _ _ _ H1) as [K P].
  unfold run.
  assert (L : (List.length (split tab line2) <? 10)%nat = false)
    by (apply Nat.ltb_ge; exact Hlen).
  rewrite L, Hb, Hm. unfold key_is. rewrite K, String.eqb_refl.
  cbn [orb]. now rewrite P.
Qed.

Lemma run_shows_cached_analysis_witness :
  run json_loads_sample (fun _ _ => CreateRaises)
      (mkSession (Some (analysis_key "Rohde & Schwarz" "CMU300"))
                 (Some (record "Rohde & Schwarz" "CMU300"
                               ["B12"; "B76"; "B78PCMCIA"; "K70"; "K71";
                                "K75"; "K76"; "K77"; "K78"; "K79"])))
      (nth 11 data_lines EmptyString) false
  = Some (mkSession (Some (analysis_key "Rohde & Schwarz" "CMU300"))
                    (Some (record "Rohde & Schwarz" "CMU300"
                                  ["B12"; "B76"; "B78PCMCIA"; "K70"; "K71";
                                   "K75"; "K76"; "K77"; "K78"; "K79"])),
          Some (record "Rohde & Schwarz" "CMU300"
                       ["B12"; "B76"; "B78PCMCIA"; "K70"; "K71";
                        "K75"; "K76"; "K77"; "K78"; "K79"])).
Proof.
  apply (run_shows_cached_analysis json_loads_sample
           (fun _ _ => CreateRaises) (mkSession None None)
           _ (nth 9 data_lines EmptyString) (nth 11 data_lines EmptyString)).
  - vm_compute. reflexivity.
  - vm_compute. lia.
  - vm_compute. reflexivity.
  - vm_compute. reflexivity.
Defined.

(** ** The collaborator wrapper on every answer *)

(** X22: [normalize_options_via_llm] raises only when the call to the
    collaborator itself raises.  Once there is an answer, no decoding
    problem gets out: the result is the fallback record, or the decoded
    value for which the test for "normalized" succeeded. *)
Theorem wrapper_raises_only_on_call_failure
        (json_loads : string -> result json) (client : OpenAI)
        (original_text : string) :
  match client (build_user_prompt original_text) with
  | CreateRaises =>
      normalize_options_via_llm json_loads client original_text
      = Raise APIError
  | Message c =>
      normalize_options_via_llm json_loads client original_text = Ok fallback
      \/ exists data,
           json_loads (content_or_default c) = Ok data
           /\ contains "normalized" data = Ok true
           /\ normalize_options_via_llm json_loads client original_text
              = Ok data
  end.
Proof.
  unfold normalize_options_via_llm.
  destruct (client (build_user_prompt original_text)) as [| c];
    [reflexivity |].
  destruct (json_loads (content_or_default c)) as [data | e] eqn:L;
    [| left; reflexivity].
  cbn [bind].
  destruct (contains "normalized" data) as [[|] | e] eqn:C;
    cbn [bind negb try_except].
  - right. exists data. repeat split; reflexivity || assumption.
  - left. reflexivity.
  - left. reflexivity.
Qed.

(** X23: an answer without content, [None] or the empty string, is read
    as the text of the empty object, and with [json.loads] decoding that
    text to the empty object the result is the fallback record. *)
Theorem empty_content_falls_back
        (json_loads : string -> result json) (client : OpenAI)
        (original_text : string) (c : option string) :
  json_loads "{}" = Ok (JObj []) ->
  client (build_user_prompt original_text) = Message c ->
  c = None \/ c = Some EmptyString ->
  normalize_options_via_llm json_loads client original_text = Ok fallback.
Proof.
  intros L H E. unfold normalize_options_via_llm. rewrite H.
  assert (D : content_or_default c = "{}") by (destruct E; subst c; reflexivity).
  rewrite D, L. reflexivity.
Qed.

Lemma empty_content_falls_back_witness :
  normalize_options_via_llm json_loads_sample
    (fun _ => Message (Some EmptyString)) "BOONTON 4500C 006"
  = Ok fallback.
Proof.
  apply (empty_content_falls_back json_loads_sample
           (fun _ => Message (Some EmptyString)) "BOONTON 4500C 006"
           (Some EmptyString)).
  - reflexivity.
  - reflexivity.
  - right. reflexivity.
Defined.
